(** * AnalyticsService: the event-batching dispatcher

    A shallow embedding of the class [AnalyticsService] of [app.js] (lines
    326-503: queue, batch flush, delivery with retry and exponential backoff,
    metrics, shutdown) and of its factory [createAnalyticsService], and the
    properties the specification states about them.

    Conventions of the embedding.
    - A method call is run to completion: every [await] is resolved in place by
      the environment.  A call that arrives while another flush is suspended is
      a call in a state whose [isFlushInProgress] is [true].
    - The environment is an oracle [net]: the reply to the n-th [fetch] of the
      run, with the time it took.  [Date.now()] reads the clock [now] of the
      world; the clock moves when a fetch is awaited, when [delay] sleeps, and
      between calls.  A timeout is taken to fire when it is due; a delay
      outside the range of the timers (1 to 2^31 - 1 ms) runs as 1 ms.
    - Every effect the class has on the outside (a POST, a sleep, an emitted
      notification, a timer being set or cleared) is appended to the [log] of
      the world, oldest first.
    - Listeners registered by subscribers are taken not to throw, and the
      events to serialize.
    - A JavaScript [number] holding a count, a configured size or a time in
      milliseconds is a [Z]: the configuration is not validated, so sizes and
      counts below 1 are inputs like any other.  The running average, the one
      number that leaves the integers, is kept abstract over its arithmetic
      ([Number]) and instantiated with IEEE-754 doubles (what the program runs
      on) and with exact rationals.
    - [saveMetricsToFile] takes no part in the properties and is left out. *)

From Stdlib Require Import String ZArith List Bool Lia.
From Stdlib Require Import QArith Qcanon Field.
From Stdlib Require Import Floats Uint63 DecimalString.
Import ListNotations.

Local Open Scope string_scope.
Local Open Scope list_scope.
Local Open Scope Z_scope.

(** ** Numbers *)

(** The arithmetic [updateAverageFlushTime] needs from a [number]. *)
Class Number (R : Type) : Type := {
  ofZ : Z -> R;
  nadd : R -> R -> R;
  nmul : R -> R -> R;
  ndiv : R -> R -> R
}.

(** Integer to double, exact for magnitudes up to 2^53. *)
Definition float_of_Z (z : Z) : float :=
  if z <? 0 then PrimFloat.opp (PrimFloat.of_uint63 (Uint63.of_Z (- z)))
  else PrimFloat.of_uint63 (Uint63.of_Z z).

(** IEEE-754 binary64, the [number] of the JavaScript runtime. *)
#[export] Instance DoubleNumber : Number float := {
  ofZ := float_of_Z;
  nadd := PrimFloat.add;
  nmul := PrimFloat.mul;
  ndiv := PrimFloat.div
}.

(** Exact rational arithmetic. *)
#[export] Instance ExactNumber : Number Qc := {
  ofZ := fun z => Q2Qc (inject_Z z);
  nadd := Qcplus;
  nmul := Qcmult;
  ndiv := Qcdiv
}.

(** ** Data model *)

(** [interface AnalyticsConfig] *)
Record AnalyticsConfig : Type := {
  apiEndpoint : string;
  batchSize : Z;
  flushInterval : Z;
  retryAttempts : Z
}.

(** [Partial<AnalyticsConfig>] *)
Record PartialConfig : Type := {
  apiEndpoint_opt : option string;
  batchSize_opt : option Z;
  flushInterval_opt : option Z;
  retryAttempts_opt : option Z
}.

(** A value that can be thrown or can reject a promise: an [Error] object
    with its message, or something that is not an [Error]. *)
Inductive JsValue : Type :=
| ErrorObj (message : string)
| NonError (description : string).

(** How a call ends. *)
Inductive Completion (A : Type) : Type :=
| Return (a : A)
| Throw (v : JsValue).
Arguments Return {A} a.
Arguments Throw {A} v.

(** What [fetch] settles to: a response, or a rejection. *)
Record Response : Type := {
  ok : bool;
  status : Z;
  statusText : string
}.

Inductive FetchResult : Type :=
| Resolved (response : Response)
| Rejected (reason : JsValue).

(** One reply of the network: the result and the milliseconds it took. *)
Record FetchReply : Type := {
  latency : Z;
  result : FetchResult
}.

Definition string_of_Z (z : Z) : string := NilZero.string_of_int (Z.to_int z).

Section Dispatcher.

(** The property bag of an event, [Record<string, unknown>], is opaque to the
    dispatcher. *)
Context {Props : Type}.

(** [interface EventData]; [timestamp] in milliseconds. *)
Record EventData : Type := {
  eventType : string;
  userId : string;
  properties : Props;
  timestamp : Z
}.

(** The notifications of the [EventEmitter]. *)
Inductive Notification : Type :=
| eventTracked (event : EventData)
| flushCompleted (count : Z)
| flushFailed (error : JsValue)
| metricsSaved (filePath : string)
| shutdownDone
| errorEvent (error : JsValue).

(** Effects on the outside world, as they are logged.  [Sleep ms] is a
    timeout that fired after [ms] milliseconds. *)
Inductive Effect : Type :=
| Post (endpoint : string) (events : list EventData)
| Sleep (ms : Z)
| Emit (n : Notification)
| SetInterval (ms : Z)
| ClearInterval
| ConsoleError (error : JsValue).

Record World : Type := {
  now : Z;
  fetches : nat;
  timerRunning : bool;
  log : list Effect
}.

(** [NodeJS.Timeout]: the handle of the one interval timer. *)
Inductive Timeout : Type := IntervalHandle.

Context {R : Type} {NumR : Number R}.

(** [interface Metrics] *)
Record Metrics : Type := {
  totalEvents : Z;
  successfulFlushes : Z;
  failedFlushes : Z;
  averageFlushTime : R
}.

(** The private fields of [AnalyticsService]. *)
Record Service : Type := {
  config : AnalyticsConfig;
  eventQueue : list EventData;
  isFlushInProgress : bool;
  flushTimer : option Timeout;
  metrics : Metrics
}.

(** *** Field updates *)

Definition set_eventQueue (q : list EventData) (s : Service) : Service :=
  {| config := config s; eventQueue := q;
     isFlushInProgress := isFlushInProgress s; flushTimer := flushTimer s;
     metrics := metrics s |}.

Definition set_isFlushInProgress (b : bool) (s : Service) : Service :=
  {| config := config s; eventQueue := eventQueue s;
     isFlushInProgress := b; flushTimer := flushTimer s;
     metrics := metrics s |}.

Definition set_flushTimer (t : option Timeout) (s : Service) : Service :=
  {| config := config s; eventQueue := eventQueue s;
     isFlushInProgress := isFlushInProgress s; flushTimer := t;
     metrics := metrics s |}.

Definition set_metrics (m : Metrics) (s : Service) : Service :=
  {| config := config s; eventQueue := eventQueue s;
     isFlushInProgress := isFlushInProgress s; flushTimer := flushTimer s;
     metrics := m |}.

Definition set_totalEvents (n : Z) (m : Metrics) : Metrics :=
  {| totalEvents := n; successfulFlushes := successfulFlushes m;
     failedFlushes := failedFlushes m; averageFlushTime := averageFlushTime m |}.

Definition set_successfulFlushes (n : Z) (m : Metrics) : Metrics :=
  {| totalEvents := totalEvents m; successfulFlushes := n;
     failedFlushes := failedFlushes m; averageFlushTime := averageFlushTime m |}.

Definition set_failedFlushes (n : Z) (m : Metrics) : Metrics :=
  {| totalEvents := totalEvents m; successfulFlushes := successfulFlushes m;
     failedFlushes := n; averageFlushTime := averageFlushTime m |}.

Definition set_averageFlushTime (a : R) (m : Metrics) : Metrics :=
  {| totalEvents := totalEvents m; successfulFlushes := successfulFlushes m;
     failedFlushes := failedFlushes m; averageFlushTime := a |}.

Definition logged (e : Effect) (w : World) : World :=
  {| now := now w; fetches := fetches w; timerRunning := timerRunning w;
     log := log w ++ [e] |}.

(** ** The monad of a method body: it reads and writes the fields and the
    world, and ends by returning or by throwing.  What was written before a
    throw stays written. *)

Definition M (A : Type) : Type :=
  Service -> World -> Completion A * Service * World.

Definition ret {A} (a : A) : M A := fun s w => (Return a, s, w).

Definition throw {A} (v : JsValue) : M A := fun s w => (Throw v, s, w).

Definition bind {A B} (m : M A) (k : A -> M B) : M B :=
  fun s w =>
    match m s w with
    | (Return a, s', w') => k a s' w'
    | (Throw v, s', w') => (Throw v, s', w')
    end.

Notation "x <- c1 ;; c2" := (bind c1 (fun x => c2))
  (at level 61, c1 at next level, right associativity).
Notation "c1 ;; c2" := (bind c1 (fun _ => c2))
  (at level 61, right associativity).

(** [try { body } catch (error) { handler }] *)
Definition try_catch {A} (body : M A) (handler : JsValue -> M A) : M A :=
  fun s w =>
    match body s w with
    | (Return a, s', w') => (Return a, s', w')
    | (Throw v, s', w') => handler v s' w'
    end.

(** [try { body } finally { cleanup }]: the cleanup runs either way and the
    completion of the body stands unless the cleanup itself throws. *)
Definition try_finally {A} (body : M A) (cleanup : M unit) : M A :=
  fun s w =>
    let '(c, s', w') := body s w in
    match cleanup s' w' with
    | (Return _, s'', w'') => (c, s'', w'')
    | (Throw v, s'', w'') => (Throw v, s'', w'')
    end.

(** The completion of a body as a value, for a [try] whose body returns from
    the enclosing function. *)
Definition settle {A} (body : M A) : M (Completion A) :=
  fun s w => let '(c, s', w') := body s w in (Return c, s', w').

Definition this : M Service := fun s w => (Return s, s, w).

Definition update (f : Service -> Service) : M unit :=
  fun s w => (Return tt, f s, w).

(** *** The environment *)

(** The reply to the n-th [fetch] of the run. *)
Variable net : nat -> FetchReply.

(** [Date.now()], also the value of [new Date()]. *)
Definition dateNow : M Z := fun s w => (Return (now w), s, w).

(** [this.emit(...)].  The constructor registers the one listener of the
    class, on ['error'], which prints the error. *)
Definition emit (n : Notification) : M unit :=
  fun s w =>
    match n with
    | errorEvent error =>
        (Return tt, s, logged (ConsoleError error) (logged (Emit n) w))
    | _ => (Return tt, s, logged (Emit n) w)
    end.

(** [await fetch(endpoint, { method: 'POST', ..., body: JSON.stringify({ events }) })] *)
Definition fetch (endpoint : string) (events : list EventData) : M Response :=
  fun s w =>
    let reply := net (fetches w) in
    let w' := {| now := now w + latency reply; fetches := S (fetches w);
                 timerRunning := timerRunning w;
                 log := log w ++ [Post endpoint events] |} in
    match result reply with
    | Resolved response => (Return response, s, w')
    | Rejected reason => (Throw reason, s, w')
    end.

(** [setInterval] and [clearInterval] for the periodic flush. *)
Definition setInterval (ms : Z) : M Timeout :=
  fun s w =>
    (Return IntervalHandle, s,
     {| now := now w; fetches := fetches w; timerRunning := true;
        log := log w ++ [SetInterval ms] |}).

Definition clearInterval (t : Timeout) : M unit :=
  fun s w =>
    (Return tt, s,
     {| now := now w; fetches := fetches w; timerRunning := false;
        log := log w ++ [ClearInterval] |}).

(** [Array.prototype.splice(start, deleteCount)]: the removed elements and
    what is left of the array, with both arguments clamped as the language
    does. *)
Definition splice {A} (start deleteCount : Z) (l : list A) : list A * list A :=
  let len := Z.of_nat (length l) in
  let actualStart :=
    if start <? 0 then Z.max (len + start) 0 else Z.min start len in
  let actualDeleteCount := Z.min (Z.max deleteCount 0) (len - actualStart) in
  let a := Z.to_nat actualStart in
  let d := Z.to_nat actualDeleteCount in
  (firstn d (skipn a l), firstn a l ++ skipn (a + d) l).

(** ** The methods of [AnalyticsService] *)

(** The time a timer set with [setTimeout(callback, ms)] runs: a delay
    below 1 or above 2^31 - 1 milliseconds is run as 1 millisecond. *)
Definition TIMEOUT_MAX : Z := 2147483647.

Definition timerDelay (ms : Z) : Z :=
  if (1 <=? ms) && (ms <=? TIMEOUT_MAX) then ms else 1.

(** [delay(ms)] (lines 500-502): resolves when the timeout set for [ms]
    milliseconds fires.  The sleep logged is the time the timer ran. *)
Definition delay (ms : Z) : M unit :=
  fun s w =>
    (Return tt, s,
     {| now := now w + timerDelay ms; fetches := fetches w;
        timerRunning := timerRunning w;
        log := log w ++ [Sleep (timerDelay ms)] |}).

(** The body of the [try] of [sendEvents]: one POST; a response that is not
    [ok] is thrown as an [Error]. *)
Definition postEvents (events : list EventData) : M unit :=
  s <- this;;
  response <- fetch (apiEndpoint (config s)) events;;
  if negb (ok response) then
    throw (ErrorObj ("HTTP " ++ string_of_Z (status response) ++ ": "
                       ++ statusText response)%string)
  else ret tt.

(** [error instanceof Error ? error : new Error('Unknown error')] *)
Definition asError (error : JsValue) : JsValue :=
  match error with
  | ErrorObj _ => error
  | NonError _ => ErrorObj "Unknown error"
  end.

(** [lastError || new Error('Failed to send events after all retry attempts')] *)
Definition orFallback (lastError : option JsValue) : JsValue :=
  match lastError with
  | Some e => e
  | None => ErrorObj "Failed to send events after all retry attempts"
  end.

(** The [for] loop of [sendEvents] and the [throw] after it.  [attempt] is
    the loop variable; [remaining] counts the iterations still to run,
    [retryAttempts - attempt + 1] cut at zero, so that [remaining = 0] is the
    exit test [attempt > retryAttempts]. *)
Fixpoint sendLoop (events : list EventData) (remaining : nat) (attempt : Z)
    (lastError : option JsValue) : M unit :=
  match remaining with
  | O => throw (orFallback lastError)
  | S remaining' =>
      c <- settle (postEvents events);;
      match c with
      | Return _ => ret tt
      | Throw error =>
          s <- this;;
          (if attempt <? retryAttempts (config s)
           then delay (2 ^ attempt * 1000) else ret tt);;
          sendLoop events remaining' (attempt + 1) (Some (asError error))
      end
  end.

(** [sendEvents(events)] (lines 457-486) *)
Definition sendEvents (events : list EventData) : M unit :=
  s <- this;;
  sendLoop events (Z.to_nat (retryAttempts (config s))) 1 None.

(** [updateAverageFlushTime(newTime)] (lines 491-495) *)
Definition updateAverageFlushTime (newTime : Z) : M unit :=
  s <- this;;
  let totalFlushes := successfulFlushes (metrics s) in
  update (fun s =>
    set_metrics
      (set_averageFlushTime
         (ndiv (nadd (nmul (averageFlushTime (metrics s)) (ofZ (totalFlushes - 1)))
                     (ofZ newTime))
               (ofZ totalFlushes))
         (metrics s)) s).

(** [flush()] (lines 373-397) *)
Definition flush : M Z :=
  s <- this;;
  if isFlushInProgress s || (Z.of_nat (length (eventQueue s)) =? 0) then
    ret 0
  else
    update (set_isFlushInProgress true);;
    startTime <- dateNow;;
    try_finally
      (try_catch
         (s <- this;;
          let (eventsToFlush, rest) :=
            splice 0 (batchSize (config s)) (eventQueue s) in
          update (set_eventQueue rest);;
          sendEvents eventsToFlush;;
          update (fun s =>
            set_metrics
              (set_successfulFlushes (successfulFlushes (metrics s) + 1)
                 (metrics s)) s);;
          endTime <- dateNow;;
          updateAverageFlushTime (endTime - startTime);;
          emit (flushCompleted (Z.of_nat (length eventsToFlush)));;
          ret (Z.of_nat (length eventsToFlush)))
         (fun error =>
            update (fun s =>
              set_metrics
                (set_failedFlushes (failedFlushes (metrics s) + 1)
                   (metrics s)) s);;
            emit (flushFailed error);;
            throw error))
      (update (set_isFlushInProgress false)).

(** [track(eventType, userId, properties)] (lines 350-367) *)
Definition track (eventType userId : string) (properties : Props) : M unit :=
  timestamp <- dateNow;;
  let event :=
    {| eventType := eventType; userId := userId;
       properties := properties; timestamp := timestamp |} in
  update (fun s => set_eventQueue (eventQueue s ++ [event]) s);;
  update (fun s =>
    set_metrics (set_totalEvents (totalEvents (metrics s) + 1) (metrics s)) s);;
  emit (eventTracked event);;
  s <- this;;
  if Z.of_nat (length (eventQueue s)) >=? batchSize (config s) then
    flush;; ret tt
  else ret tt.

(** [getMetrics()] (lines 402-404): a copy of the counters. *)
Definition getMetrics (s : Service) : Metrics :=
  {| totalEvents := totalEvents (metrics s);
     successfulFlushes := successfulFlushes (metrics s);
     failedFlushes := failedFlushes (metrics s);
     averageFlushTime := averageFlushTime (metrics s) |}.

(** The [while] loop of [shutdown].  The loop has no bound of its own, so the
    model runs it on fuel: [None] means the fuel ran out before the loop
    ended. *)
Fixpoint drain (fuel : nat) (s : Service) (w : World)
    : option (Completion unit * Service * World) :=
  match fuel with
  | O => None
  | S fuel' =>
      if Z.of_nat (length (eventQueue s)) >? 0 then
        match flush s w with
        | (Return _, s', w') => drain fuel' s' w'
        | (Throw v, s', w') => Some (Throw v, s', w')
        end
      else Some (Return tt, s, w)
  end.

(** [shutdown()] (lines 424-435) *)
Definition shutdown (fuel : nat) (s : Service) (w : World)
    : option (Completion unit * Service * World) :=
  let '(_, s1, w1) :=
    match flushTimer s with
    | Some t => clearInterval t s w
    | None => ret tt s w
    end in
  match drain fuel s1 w1 with
  | Some (Return _, s2, w2) => Some (emit shutdownDone s2 w2)
  | Some (Throw v, s2, w2) => Some (Throw v, s2, w2)
  | None => None
  end.

(** The callback of the interval timer set by [initializeService]: the error
    of a failed flush goes to the ['error'] notification. *)
Definition onInterval : M unit :=
  s <- this;;
  if Z.of_nat (length (eventQueue s)) >? 0 then
    try_catch (flush;; ret tt) (fun error => emit (errorEvent error))
  else ret tt.

(** [initializeService()] (lines 440-452); the listener it registers on
    ['error'] is in [emit]. *)
Definition initializeService : M unit :=
  s <- this;;
  t <- setInterval (flushInterval (config s));;
  update (set_flushTimer (Some t)).

(** [new AnalyticsService(config)] (lines 333-344) *)
Definition newAnalyticsService (cfg : AnalyticsConfig) (w : World)
    : Service * World :=
  let s0 :=
    {| config := cfg; eventQueue := []; isFlushInProgress := false;
       flushTimer := None;
       metrics := {| totalEvents := 0; successfulFlushes := 0;
                     failedFlushes := 0; averageFlushTime := ofZ 0 |} |} in
  let '(_, s, w') := initializeService s0 w in (s, w').

(** The defaults of [createAnalyticsService]. *)
Definition defaultConfig : AnalyticsConfig :=
  {| apiEndpoint := "https://analytics.example.com/events";
     batchSize := 10;
     flushInterval := 30000;
     retryAttempts := 3 |}.

(** [createAnalyticsService(overrides)] (lines 509-518): the defaults, each
    replaced by the override that is present. *)
Definition createAnalyticsService (overrides : PartialConfig) (w : World)
    : Service * World :=
  newAnalyticsService
    {| apiEndpoint :=
         match apiEndpoint_opt overrides with
         | Some v => v | None => apiEndpoint defaultConfig end;
       batchSize :=
         match batchSize_opt overrides with
         | Some v => v | None => batchSize defaultConfig end;
       flushInterval :=
         match flushInterval_opt overrides with
         | Some v => v | None => flushInterval defaultConfig end;
       retryAttempts :=
         match retryAttempts_opt overrides with
         | Some v => v | None => retryAttempts defaultConfig end |} w.

(** ** Runs: what a client and the timer do to a dispatcher, in order *)

Inductive Call : Type :=
| CallTrack (eventType userId : string) (properties : Props)
| CallFlush
| IntervalFires
| TimePasses (ms : Z).

(** One step of a run.  The client goes on after an error, so the completion
    of the call is dropped; the fields and the world are kept. *)
Definition perform (c : Call) (s : Service) (w : World) : Service * World :=
  match c with
  | CallTrack eventType userId properties =>
      let '(_, s', w') := track eventType userId properties s w in (s', w')
  | CallFlush => let '(_, s', w') := flush s w in (s', w')
  | IntervalFires =>
      if timerRunning w then let '(_, s', w') := onInterval s w in (s', w')
      else (s, w)
  | TimePasses ms =>
      (s, {| now := now w + ms; fetches := fetches w;
             timerRunning := timerRunning w; log := log w |})
  end.

Fixpoint performAll (cs : list Call) (s : Service) (w : World)
    : Service * World :=
  match cs with
  | [] => (s, w)
  | c :: cs' => let '(s', w') := perform c s w in performAll cs' s' w'
  end.

(** The number of [track] calls of a run. *)
Fixpoint trackCalls (cs : list Call) : Z :=
  match cs with
  | [] => 0
  | CallTrack _ _ _ :: cs' => 1 + trackCalls cs'
  | _ :: cs' => trackCalls cs'
  end.

(** ** Notions the properties are stated with *)

(** What an attempt answered by [r] throws into the [catch] of [sendEvents]:
    the rejection of the promise, or the [Error] made from a response that is
    not [ok]; nothing when the attempt succeeds. *)
Definition deliveryError (r : FetchReply) : option JsValue :=
  match result r with
  | Resolved response =>
      if ok response then None
      else Some (ErrorObj ("HTTP " ++ string_of_Z (status response) ++ ": "
                             ++ statusText response)%string)
  | Rejected reason => Some reason
  end.

(** The world after a POST of [events] to [endpoint]. *)
Definition posted (endpoint : string) (events : list EventData) (w : World)
    : World :=
  {| now := now w + latency (net (fetches w)); fetches := S (fetches w);
     timerRunning := timerRunning w; log := log w ++ [Post endpoint events] |}.

(** The number of records [flush] detaches from a queue of [len] records. *)
Definition batchLength (cfg : AnalyticsConfig) (len : nat) : nat :=
  Z.to_nat (Z.min (Z.max (batchSize cfg) 0) (Z.of_nat len)).

(** The fields after a flush that detached a batch, left [rest] in the queue
    and delivered the batch in [newTime] milliseconds. *)
Definition afterDelivery (s : Service) (rest : list EventData) (newTime : Z)
    : Service :=
  {| config := config s;
     eventQueue := rest;
     isFlushInProgress := false;
     flushTimer := flushTimer s;
     metrics :=
       {| totalEvents := totalEvents (metrics s);
          successfulFlushes := successfulFlushes (metrics s) + 1;
          failedFlushes := failedFlushes (metrics s);
          averageFlushTime :=
            ndiv (nadd (nmul (averageFlushTime (metrics s))
                             (ofZ (successfulFlushes (metrics s) + 1 - 1)))
                       (ofZ newTime))
                 (ofZ (successfulFlushes (metrics s) + 1)) |} |}.

(** The fields after a flush that detached a batch, left [rest] in the queue
    and could not deliver the batch. *)
Definition afterFailure (s : Service) (rest : list EventData) : Service :=
  {| config := config s;
     eventQueue := rest;
     isFlushInProgress := false;
     flushTimer := flushTimer s;
     metrics :=
       {| totalEvents := totalEvents (metrics s);
          successfulFlushes := successfulFlushes (metrics s);
          failedFlushes := failedFlushes (metrics s) + 1;
          averageFlushTime := averageFlushTime (metrics s) |} |}.

(** The fields while the batch is on its way: the flag is up and the batch is
    out of the queue. *)
Definition inFlight (s : Service) (rest : list EventData) : Service :=
  set_eventQueue rest (set_isFlushInProgress true s).

(** What [sendEvents] throws when each of its [attempts] attempts fails, the
    first of them being fetch number [first] of the run: the error recorded
    at the last attempt, or the fallback when there is no attempt. *)
Definition exhaustedError (attempts first : nat) : JsValue :=
  match attempts with
  | O => orFallback None
  | S n => orFallback (option_map asError (deliveryError (net (first + n))))
  end.

(** The event [track] makes at time [t]. *)
Definition newEvent (eventType userId : string) (properties : Props) (t : Z)
    : EventData :=
  {| eventType := eventType; userId := userId;
     properties := properties; timestamp := t |}.

(** The fields after the first two statements of [track]. *)
Definition enqueued (s : Service) (event : EventData) : Service :=
  {| config := config s;
     eventQueue := eventQueue s ++ [event];
     isFlushInProgress := isFlushInProgress s;
     flushTimer := flushTimer s;
     metrics :=
       {| totalEvents := totalEvents (metrics s) + 1;
          successfulFlushes := successfulFlushes (metrics s);
          failedFlushes := failedFlushes (metrics s);
          averageFlushTime := averageFlushTime (metrics s) |} |}.

(** The incremental mean: from an average over [count] values, take in the
    values [ts] one at a time, each time from the prior average and the
    count alone. *)
Fixpoint runningAverage (avg : R) (count : Z) (ts : list Z) : R :=
  match ts with
  | [] => avg
  | t :: ts' =>
      runningAverage
        (ndiv (nadd (nmul avg (ofZ count)) (ofZ t)) (ofZ (count + 1)))
        (count + 1) ts'
  end.

(** The sum of a list of durations. *)
Definition total (ts : list Z) : Z := fold_right Z.add 0 ts.

(** Whether the requests made between [w] and [w'] delivered a batch: there
    is one, and the last of them was answered well.  This is read off the
    network alone, not off the fields of the dispatcher. *)
Definition delivered (w w' : World) : bool :=
  (fetches w <? fetches w')%nat
  && match deliveryError (net (Nat.pred (fetches w'))) with
     | None => true
     | Some _ => false
     end.

(** The durations of the successful flushes of a run, oldest first.  A step
    makes at most one flush; a flush that runs posts its batch until a
    request is answered well or the attempts are used up, so the step has
    made a successful flush when the last request made in it was answered
    well.  Nothing else in a step that flushes takes time, and a flush
    measures from its first statement to the return of [sendEvents]: the
    duration it observes is the clock after the step less the clock
    before. *)
Fixpoint flushDurations (cs : list Call) (s : Service) (w : World) : list Z :=
  match cs with
  | [] => []
  | c :: cs' =>
      let '(s', w') := perform c s w in
      (if delivered w w' then [now w' - now w] else [])
      ++ flushDurations cs' s' w'
  end.

(** What a step can do to the count of successful flushes and to the
    average: nothing, or one more flush taken into the average with the time
    the step took; and the step does the second exactly when it delivered a
    batch. *)
Definition countersKept (s s' : Service) : Prop :=
  successfulFlushes (metrics s') = successfulFlushes (metrics s)
  /\ averageFlushTime (metrics s') = averageFlushTime (metrics s).

Definition flushCounted (s s' : Service) (w w' : World) : Prop :=
  successfulFlushes (metrics s') = successfulFlushes (metrics s) + 1
  /\ averageFlushTime (metrics s') =
       ndiv (nadd (nmul (averageFlushTime (metrics s))
                        (ofZ (successfulFlushes (metrics s))))
                  (ofZ (now w' - now w)))
            (ofZ (successfulFlushes (metrics s) + 1)).

Definition countersFollowDelivery (s s' : Service) (w w' : World) : Prop :=
  (delivered w w' = false /\ countersKept s s')
  \/ (delivered w w' = true /\ flushCounted s s' w w').

(** The world after the first statement of [shutdown]. *)
Definition timerCleared (s : Service) (w : World) : World :=
  match flushTimer s with
  | Some _ =>
      {| now := now w; fetches := fetches w; timerRunning := false;
         log := log w ++ [ClearInterval] |}
  | None => w
  end.


End Dispatcher.

Arguments EventData : clear implicits.
Arguments Notification : clear implicits.
Arguments Effect : clear implicits.
Arguments World : clear implicits.
Arguments Metrics : clear implicits.
Arguments Service : clear implicits.
Arguments Call : clear implicits.
Arguments M : clear implicits.

(** ** Further notions of the dispatcher *)

Section Accounts.

Context {Props R : Type}.

(** The effects of [failures] failed attempts in a row, the first of them
    attempt number [attempt]: each is the POST and the sleep that follows
    it, for the time the timer set for [2 ^ attempt * 1000] ms runs. *)
Fixpoint backoffLog (post : Effect Props) (failures : nat) (attempt : Z)
    : list (Effect Props) :=
  match failures with
  | O => []
  | S failures' =>
      post :: Sleep (timerDelay (2 ^ attempt * 1000))
           :: backoffLog post failures' (attempt + 1)
  end.

(** An effect of the delivery of a batch: the POST of the batch, or a
    sleep. *)
Definition attemptEffect (post e : Effect Props) : Prop :=
  e = post \/ exists ms, e = Sleep ms.

(** The total of [f] over a log. *)
Fixpoint tally (f : Effect Props -> Z) (l : list (Effect Props)) : Z :=
  match l with
  | [] => 0
  | e :: l' => f e + tally f l'
  end.

(** The events a [flushCompleted] notification reports as delivered. *)
Definition deliveredEvents (e : Effect Props) : Z :=
  match e with Emit (flushCompleted n) => n | _ => 0 end.

(** One for each notification of its kind. *)
Definition completedNotice (e : Effect Props) : Z :=
  match e with Emit (flushCompleted _) => 1 | _ => 0 end.

Definition failedNotice (e : Effect Props) : Z :=
  match e with Emit (flushFailed _) => 1 | _ => 0 end.

Definition trackedNotice (e : Effect Props) : Z :=
  match e with Emit (eventTracked _) => 1 | _ => 0 end.

(** The events tracked that are neither pending nor reported delivered. *)
Definition unaccounted (s : Service Props R) (w : World Props) : Z :=
  totalEvents (metrics s) - Z.of_nat (length (eventQueue s))
  - tally deliveredEvents (log w).

(** What every call of a run keeps: the configuration, the timer and the
    flag; the agreement of the three counters with the notifications
    emitted; and the account of the events, which moves only when a flush
    fails. *)
Definition accountsKept (s : Service Props R) (w : World Props)
    (s' : Service Props R) (w' : World Props) : Prop :=
  config s' = config s
  /\ flushTimer s' = flushTimer s
  /\ isFlushInProgress s' = isFlushInProgress s
  /\ timerRunning w' = timerRunning w
  /\ totalEvents (metrics s') - tally trackedNotice (log w') =
       totalEvents (metrics s) - tally trackedNotice (log w)
  /\ successfulFlushes (metrics s') - tally completedNotice (log w') =
       successfulFlushes (metrics s) - tally completedNotice (log w)
  /\ failedFlushes (metrics s') - tally failedNotice (log w') =
       failedFlushes (metrics s) - tally failedNotice (log w)
  /\ failedFlushes (metrics s) <= failedFlushes (metrics s')
  /\ unaccounted s w <= unaccounted s' w'
  /\ (failedFlushes (metrics s') = failedFlushes (metrics s) ->
      unaccounted s' w' = unaccounted s w).

(** A [track] call from its arguments, and the event it makes at time [t]. *)
Definition trackCall (a : string * string * Props) : Call Props :=
  CallTrack (fst (fst a)) (snd (fst a)) (snd a).

Definition eventOf (t : Z) (a : string * string * Props) : EventData Props :=
  newEvent (fst (fst a)) (snd (fst a)) (snd a) t.

End Accounts.

(** The time slept after [failures] failed attempts in a row, the first of
    them attempt number [attempt]. *)
Fixpoint backoffTime (failures : nat) (attempt : Z) : Z :=
  match failures with
  | O => 0
  | S failures' =>
      timerDelay (2 ^ attempt * 1000) + backoffTime failures' (attempt + 1)
  end.

(** The time the [n] fetches from number [first] on take together. *)
Fixpoint totalLatency (net : nat -> FetchReply) (first n : nat) : Z :=
  match n with
  | O => 0
  | S n' => latency (net first) + totalLatency net (S first) n'
  end.

(** ** The responsive page of [app.js] (lines 1-288)

    The viewport width a media query sees is a rational number of CSS
    pixels; [window.innerWidth] is an integer.  A [classList] is the ordered
    set of class names of an element.  The calls to [console.log] are left
    out. *)

(** The keys of [mediaQueries]. *)
Inductive Breakpoint : Type := xs | sm | md | lg | xl | xxl.

Definition keyName (b : Breakpoint) : string :=
  match b with
  | xs => "xs" | sm => "sm" | md => "md"
  | lg => "lg" | xl => "xl" | xxl => "xxl"
  end.

(** [getCurrentBreakpoint()] (lines 263-272), of [window.innerWidth]. *)
Definition getCurrentBreakpoint (width : Z) : string :=
  if width <? 576 then "xs"
  else if width <? 768 then "sm"
  else if width <? 992 then "md"
  else if width <? 1200 then "lg"
  else if width <? 1400 then "xl"
  else "xxl".

(** [isMobileDevice()] (lines 277-279) *)
Definition isMobileDevice (width : Z) : bool := width <? 768.

(** A media query on the width: [(min-width: a) and (max-width: b)], either
    bound optional. *)
Record MediaQuery : Type := {
  minWidth : option Q;
  maxWidth : option Q
}.

(** [window.matchMedia(q).matches] at a viewport of the given width. *)
Definition matches (q : MediaQuery) (width : Q) : bool :=
  match minWidth q with Some m => Qle_bool m width | None => true end
  && match maxWidth q with Some m => Qle_bool width m | None => true end.

(** The object [mediaQueries] of [handleSidebarResponsive] (lines 36-43). *)
Definition mediaQueries (b : Breakpoint) : MediaQuery :=
  match b with
  | xs => {| minWidth := None; maxWidth := Some (57598 # 100) |}
  | sm => {| minWidth := Some (576 # 1); maxWidth := Some (76798 # 100) |}
  | md => {| minWidth := Some (768 # 1); maxWidth := Some (99198 # 100) |}
  | lg => {| minWidth := Some (992 # 1); maxWidth := Some (119998 # 100) |}
  | xl => {| minWidth := Some (1200 # 1); maxWidth := Some (139998 # 100) |}
  | xxl => {| minWidth := Some (1400 # 1); maxWidth := None |}
  end.

Definition ClassList : Type := list string.

(** [classList.contains], [classList.add] and [classList.remove]. *)
Definition classList_contains (c : string) (l : ClassList) : bool :=
  existsb (String.eqb c) l.

Definition classList_add (c : string) (l : ClassList) : ClassList :=
  if classList_contains c l then l else l ++ [c].

Definition classList_remove (cs : list string) (l : ClassList) : ClassList :=
  filter (fun c => negb (existsb (String.eqb c) cs)) l.

(** The six classes [updateLayout] removes from the body. *)
Definition breakpointClasses : list string :=
  ["breakpoint-xs"; "breakpoint-sm"; "breakpoint-md"; "breakpoint-lg";
   "breakpoint-xl"; "breakpoint-xxl"].

(** The class each branch of [updateLayout] adds. *)
Definition breakpointClass (b : Breakpoint) : string :=
  match b with
  | xs => "breakpoint-xs" | sm => "breakpoint-sm" | md => "breakpoint-md"
  | lg => "breakpoint-lg" | xl => "breakpoint-xl" | xxl => "breakpoint-xxl"
  end.

(** The [if ... else if] chain of [updateLayout] (lines 52-70): the first
    media query that matches, if one does. *)
Definition matchedBreakpoint (width : Q) : option Breakpoint :=
  if matches (mediaQueries xs) width then Some xs
  else if matches (mediaQueries sm) width then Some sm
  else if matches (mediaQueries md) width then Some md
  else if matches (mediaQueries lg) width then Some lg
  else if matches (mediaQueries xl) width then Some xl
  else if matches (mediaQueries xxl) width then Some xxl
  else None.

(** The classes of [document.body] and of the element [#sidebar], which may
    be absent. *)
Record Page : Type := {
  bodyClasses : ClassList;
  sidebarClasses : option ClassList
}.

(** [updateLayout()] (lines 45-83) *)
Definition updateLayout (width : Q) (p : Page) : Page :=
  let body := classList_remove breakpointClasses (bodyClasses p) in
  {| bodyClasses :=
       match matchedBreakpoint width with
       | Some b => classList_add (breakpointClass b) body
       | None => body
       end;
     sidebarClasses :=
       match sidebarClasses p with
       | Some sidebar =>
           Some (if matches (mediaQueries xs) width
                    || matches (mediaQueries sm) width
                 then classList_remove ["show"] sidebar
                 else classList_add "show" sidebar)
       | None => None
       end |}.

(** ** Sample replies, worlds and dispatchers *)

Definition okReply (ms : Z) : FetchReply :=
  {| latency := ms;
     result := Resolved {| ok := true; status := 200; statusText := "OK" |} |}.

Definition unavailable (ms : Z) : FetchReply :=
  {| latency := ms;
     result := Resolved {| ok := false; status := 503;
                           statusText := "Service Unavailable" |} |}.

(** A network that answers every request well, in 5 ms. *)
Definition allOk : nat -> FetchReply := fun _ => okReply 5.

(** A network that answers every request with a 503, in 7 ms. *)
Definition allDown : nat -> FetchReply := fun _ => unavailable 7.

Definition quietWorld : World string :=
  {| now := 1000; fetches := 0%nat; timerRunning := true; log := [] |}.

Definition sampleEvent (name : string) : EventData string :=
  {| eventType := name; userId := "user123"; properties := "{}";
     timestamp := 900 |}.

Definition configOf (size attempts : Z) : AnalyticsConfig :=
  {| apiEndpoint := "https://analytics.example.com/events";
     batchSize := size; flushInterval := 30000; retryAttempts := attempts |}.

(** The overrides [{ batchSize: 2 }]. *)
Definition batchOfTwo : PartialConfig :=
  {| apiEndpoint_opt := None; batchSize_opt := Some 2;
     flushInterval_opt := None; retryAttempts_opt := None |}.

(** A dispatcher on doubles with the given configuration, flag and queue. *)
Definition sampleService (cfg : AnalyticsConfig) (busy : bool)
    (queue : list (EventData string)) : Service string float :=
  {| config := cfg; eventQueue := queue; isFlushInProgress := busy;
     flushTimer := Some IntervalHandle;
     metrics := {| totalEvents := Z.of_nat (length queue);
                   successfulFlushes := 0; failedFlushes := 0;
                   averageFlushTime := ofZ 0 |} |}.

(** A network whose first reply takes 29 ms and every later one no time. *)
Definition slowThenInstant : nat -> FetchReply :=
  fun n => match n with O => okReply 29 | S _ => okReply 0 end.

(** A network whose first reply takes 29 ms, whose second is a 503 after
    7 ms, and whose every later reply takes no time. *)
Definition slowDownInstant : nat -> FetchReply :=
  fun n =>
    match n with
    | O => okReply 29
    | S O => unavailable 7
    | S (S _) => okReply 0
    end.

(** Eight page views in a row. *)
Definition eightTracks : list (Call string) :=
  repeat (CallTrack "page_view" "user123" "{}") 8.

Definition evA : EventData string := sampleEvent "A".
Definition evB : EventData string := sampleEvent "B".
Definition evC : EventData string := sampleEvent "C".
Definition evD : EventData string := sampleEvent "D".
Definition evE : EventData string := sampleEvent "E".

(** A dispatcher in the middle of a flush, with one event waiting. *)
Definition busyService : Service string float :=
  sampleService (configOf 10 3) true [evA].

(** An idle dispatcher with three attempts per delivery and one event. *)
Definition oneEventService : Service string float :=
  sampleService (configOf 10 3) false [evA].

(** An idle dispatcher with twenty-three attempts per delivery and one
    event. *)
Definition patientService : Service string float :=
  sampleService (configOf 10 23) false [evA].

(** An idle dispatcher that makes no attempt at all ([retryAttempts] 0). *)
Definition noAttemptService : Service string float :=
  sampleService (configOf 10 0) false [evA].

(** Idle dispatchers with three events and batch sizes 2 and -1. *)
Definition threeEventService : Service string float :=
  sampleService (configOf 2 3) false [evA; evB; evC].

Definition negativeBatchService : Service string float :=
  sampleService (configOf (-1) 3) false [evA; evB; evC].

(** Idle dispatchers with five events and batch size 2, and with one event
    and batch size 0. *)
Definition fiveEventService : Service string float :=
  sampleService (configOf 2 3) false [evA; evB; evC; evD; evE].


(** An idle dispatcher one event short of its batch size. *)
Definition almostFullService : Service string float :=
  sampleService (configOf 2 3) false [evA].

(** A network that answers the first two requests with a 503 and every
    later one well. *)
Definition flaky : nat -> FetchReply :=
  fun n => match n with O | S O => unavailable 7 | _ => okReply 5 end.

(** A network on which every request is rejected with a value that is not an
    [Error]. *)
Definition rejecting : nat -> FetchReply :=
  fun _ => {| latency := 3; result := Rejected (NonError "timeout") |}.

(** A page at a desktop width, with the sidebar shown. *)
Definition desktopPage : Page :=
  {| bodyClasses := ["app"; "breakpoint-lg"];
     sidebarClasses := Some ["sidebar"; "show"] |}.

(** Field and world projections of the states the proofs build. *)
Ltac fields :=
  cbn [config eventQueue isFlushInProgress flushTimer metrics
       totalEvents successfulFlushes failedFlushes averageFlushTime
       now fetches timerRunning log
       apiEndpoint batchSize flushInterval retryAttempts
       set_eventQueue set_isFlushInProgress set_flushTimer set_metrics
       set_totalEvents set_successfulFlushes set_failedFlushes
       set_averageFlushTime
       enqueued afterDelivery afterFailure inFlight logged posted
       fst snd app length firstn skipn].

(** * Properties *)

Section Properties.

Context {Props R : Type} {NumR : Number R}.
Variable net : nat -> FetchReply.

(** ** Delivery *)

Lemma postEvents_spec (events : list (EventData Props))
    (s : Service Props R) (w : World Props) :
  postEvents net events s w =
    (match deliveryError (net (fetches w)) with
     | None => Return tt
     | Some e => Throw e
     end, s, posted net (apiEndpoint (config s)) events w).
Proof.
  unfold postEvents, bind, this, fetch, deliveryError, posted.
  destruct (result (net (fetches w))) as [response | reason]; [|reflexivity].
  destruct (ok response); reflexivity.
Qed.

(** Delivery reads the configuration and writes no field. *)
Lemma sendLoop_fields (events : list (EventData Props)) (remaining : nat) :
  forall attempt lastError (s : Service Props R) (w : World Props),
    snd (fst (sendLoop net events remaining attempt lastError s w)) = s.
Proof.
  induction remaining as [|n IH]; intros attempt lastError s w.
  - reflexivity.
  - cbn [sendLoop]. unfold bind, settle. rewrite postEvents_spec.
    destruct (deliveryError (net (fetches w))) as [e|]; [|reflexivity].
    unfold this. destruct (attempt <? retryAttempts (config s)).
    + unfold delay. apply IH.
    + unfold ret. apply IH.
Qed.

Lemma sendEvents_fields (events : list (EventData Props))
    (s : Service Props R) (w : World Props) :
  snd (fst (sendEvents net events s w)) = s.
Proof. unfold sendEvents, bind, this. apply sendLoop_fields. Qed.

(** A first attempt that succeeds is the whole delivery. *)
Lemma sendEvents_first_ok (events : list (EventData Props))
    (s : Service Props R) (w : World Props) :
  1 <= retryAttempts (config s) ->
  deliveryError (net (fetches w)) = None ->
  sendEvents net events s w =
    (Return tt, s, posted net (apiEndpoint (config s)) events w).
Proof.
  intros Hr Hok. unfold sendEvents, bind, this.
  destruct (Z.to_nat (retryAttempts (config s))) as [|n] eqn:E; [lia|].
  cbn [sendLoop]. unfold bind, settle. rewrite postEvents_spec, Hok.
  reflexivity.
Qed.

Lemma splice_front {A} (deleteCount : Z) (l : list A) :
  splice 0 deleteCount l =
    (firstn (Z.to_nat (Z.min (Z.max deleteCount 0) (Z.of_nat (length l)))) l,
     skipn (Z.to_nat (Z.min (Z.max deleteCount 0) (Z.of_nat (length l)))) l).
Proof.
  unfold splice. cbn [Z.ltb Z.compare].
  replace (Z.min 0 (Z.of_nat (length l))) with 0 by lia.
  rewrite Z.sub_0_r. reflexivity.
Qed.

(** ** Flush *)

Lemma flush_skip (s : Service Props R) (w : World Props) :
  isFlushInProgress s = true \/ eventQueue s = [] ->
  flush net s w = (Return 0, s, w).
Proof.
  intros [H | H]; unfold flush, bind, this; rewrite H; [reflexivity|].
  cbn. rewrite orb_true_r. reflexivity.
Qed.

(** A flush that runs: the batch is the front of the queue, and the fields
    and the notification afterwards go by the completion of the delivery. *)
Lemma flush_run (s : Service Props R) (w : World Props) :
  isFlushInProgress s = false ->
  eventQueue s <> [] ->
  flush net s w =
    let k := batchLength (config s) (length (eventQueue s)) in
    let batch := firstn k (eventQueue s) in
    let rest := skipn k (eventQueue s) in
    let '(c, _, w') := sendEvents net batch (inFlight s rest) w in
    match c with
    | Return _ =>
        (Return (Z.of_nat (length batch)),
         afterDelivery s rest (now w' - now w),
         logged (Emit (flushCompleted (Z.of_nat (length batch)))) w')
    | Throw e =>
        (Throw e, afterFailure s rest, logged (Emit (flushFailed e)) w')
    end.
Proof.
  intros Hflag Hq. unfold flush at 1. unfold bind at 1. unfold this at 1.
  rewrite Hflag.
  destruct (eventQueue s) as [|e q] eqn:Eq; [congruence|].
  replace (Z.of_nat (length (e :: q)) =? 0) with false
    by (symmetry; apply Z.eqb_neq; cbn [length]; lia).
  cbn [orb].
  rewrite <- Eq.
  unfold bind, update, dateNow, try_finally, try_catch, this.
  cbn [eventQueue set_isFlushInProgress config].
  rewrite splice_front. unfold batchLength.
  set (k := Z.to_nat _). cbv zeta.
  fold (inFlight s (skipn k (eventQueue s))).
  pose proof (sendEvents_fields (firstn k (eventQueue s))
                (inFlight s (skipn k (eventQueue s))) w) as Hf.
  destruct (sendEvents net (firstn k (eventQueue s))
              (inFlight s (skipn k (eventQueue s))) w) as [[c s2] w2].
  cbn [fst snd] in Hf. subst s2.
  destruct c as [[]|v].
  - unfold updateAverageFlushTime, bind, this, update, emit, ret. cbn.
    reflexivity.
  - unfold emit, throw. cbn. reflexivity.
Qed.

(** When every attempt fails, the loop ends by throwing the error recorded
    last, after as many fetches as it had iterations to run. *)
Lemma sendLoop_all_fail (events : list (EventData Props)) (remaining : nat) :
  forall attempt lastError (s : Service Props R) (w : World Props),
    (forall i, (i < remaining)%nat ->
               deliveryError (net (fetches w + i)) <> None) ->
    exists w',
      sendLoop net events remaining attempt lastError s w =
        (Throw (match remaining with
                | O => orFallback lastError
                | S _ => exhaustedError net remaining (fetches w)
                end), s, w')
      /\ fetches w' = (fetches w + remaining)%nat.
Proof.
  induction remaining as [|n IH]; intros attempt lastError s w Hfail.
  - exists w. split; [reflexivity | lia].
  - cbn [sendLoop]. unfold bind at 1. unfold settle. rewrite postEvents_spec.
    pose proof (Hfail 0%nat ltac:(lia)) as H0. rewrite Nat.add_0_r in H0.
    destruct (deliveryError (net (fetches w))) as [e0|] eqn:E0; [|congruence].
    unfold bind at 1. unfold this at 1.
    set (w1 := posted net (apiEndpoint (config s)) events w).
    assert (Hstep : forall w2 : World Props,
               fetches w2 = S (fetches w) ->
               exists w',
                 sendLoop net events n (attempt + 1) (Some (asError e0)) s w2 =
                   (Throw (exhaustedError net (S n) (fetches w)), s, w')
                 /\ fetches w' = (fetches w + S n)%nat).
    { intros w2 Hw2.
      destruct (IH (attempt + 1) (Some (asError e0)) s w2) as [w' [Hrun Hcount]].
      - intros i Hi. rewrite Hw2.
        replace (S (fetches w) + i)%nat with (fetches w + S i)%nat by lia.
        apply Hfail. lia.
      - exists w'. split; [|lia]. rewrite Hrun. f_equal. f_equal. f_equal.
        unfold exhaustedError. destruct n as [|m].
        + rewrite Nat.add_0_r, E0. reflexivity.
        + rewrite Hw2.
          replace (S (fetches w) + m)%nat with (fetches w + S m)%nat by lia.
          reflexivity. }
    destruct (attempt <? retryAttempts (config s)).
    + unfold bind, delay. apply Hstep. reflexivity.
    + unfold bind, ret. apply Hstep. reflexivity.
Qed.

Lemma sendEvents_all_fail (events : list (EventData Props))
    (s : Service Props R) (w : World Props) :
  (forall i, (i < Z.to_nat (retryAttempts (config s)))%nat ->
             deliveryError (net (fetches w + i)) <> None) ->
  exists w',
    sendEvents net events s w =
      (Throw (exhaustedError net (Z.to_nat (retryAttempts (config s)))
                (fetches w)), s, w')
    /\ fetches w' = (fetches w + Z.to_nat (retryAttempts (config s)))%nat.
Proof.
  intros Hfail. unfold sendEvents, bind, this.
  destruct (sendLoop_all_fail events _ 1 None s w Hfail) as [w' [Hrun Hc]].
  exists w'. split; [|exact Hc]. rewrite Hrun.
  destruct (Z.to_nat (retryAttempts (config s))); reflexivity.
Qed.

(** [track] is the enqueueing of a fresh event followed by the test for the
    automatic flush. *)
Lemma track_unfold (eventType userId : string) (properties : Props)
    (s : Service Props R) (w : World Props) :
  track net eventType userId properties s w =
    let event := newEvent eventType userId properties (now w) in
    let s1 := enqueued s event in
    let w1 := logged (Emit (eventTracked event)) w in
    if Z.of_nat (length (eventQueue s1)) >=? batchSize (config s) then
      match flush net s1 w1 with
      | (Return _, s2, w2) => (Return tt, s2, w2)
      | (Throw v, s2, w2) => (Throw v, s2, w2)
      end
    else (Return tt, s1, w1).
Proof.
  unfold track, bind, dateNow, update, emit, this. cbn.
  unfold enqueued, newEvent. cbn.
  destruct (_ >=? _); reflexivity.
Qed.


Lemma sendLoop_return_log (events : list (EventData Props)) (remaining : nat) :
  forall attempt lastError (s s' : Service Props R) (w w' : World Props),
    sendLoop net events remaining attempt lastError s w = (Return tt, s', w') ->
    exists l, log w' = l ++ [Post (apiEndpoint (config s)) events].
Proof.
  induction remaining as [|n IH]; intros attempt lastError s s' w w' Hrun.
  - discriminate Hrun.
  - cbn [sendLoop] in Hrun. unfold bind at 1 in Hrun. unfold settle in Hrun.
    rewrite postEvents_spec in Hrun.
    destruct (deliveryError (net (fetches w))) as [e0|].
    + unfold bind at 1 in Hrun. unfold this at 1 in Hrun.
      destruct (attempt <? retryAttempts (config s));
        unfold bind, delay, ret in Hrun; apply IH in Hrun; exact Hrun.
    + unfold ret in Hrun. injection Hrun as _ Hw. subst w'.
      exists (log w). reflexivity.
Qed.

Lemma sendEvents_return_log (events : list (EventData Props))
    (s s' : Service Props R) (w w' : World Props) :
  sendEvents net events s w = (Return tt, s', w') ->
  exists l, log w' = l ++ [Post (apiEndpoint (config s)) events].
Proof. unfold sendEvents, bind, this. apply sendLoop_return_log. Qed.

(** A flush whose first attempt is answered well. *)
Lemma flush_ok (s : Service Props R) (w : World Props) :
  isFlushInProgress s = false ->
  eventQueue s <> [] ->
  1 <= retryAttempts (config s) ->
  deliveryError (net (fetches w)) = None ->
  flush net s w =
    let k := batchLength (config s) (length (eventQueue s)) in
    let batch := firstn k (eventQueue s) in
    (Return (Z.of_nat (length batch)),
     afterDelivery s (skipn k (eventQueue s)) (latency (net (fetches w))),
     logged (Emit (flushCompleted (Z.of_nat (length batch))))
       (posted net (apiEndpoint (config s)) batch w)).
Proof.
  intros Hflag Hq Hr Hok. rewrite (flush_run s w Hflag Hq). cbv zeta.
  rewrite sendEvents_first_ok by assumption.
  cbn [config inFlight set_eventQueue set_isFlushInProgress posted now].
  do 2 f_equal. f_equal. lia.
Qed.

(** A flush none of whose attempts is answered well. *)
Lemma flush_all_fail (s : Service Props R) (w : World Props) :
  isFlushInProgress s = false ->
  eventQueue s <> [] ->
  (forall i, (i < Z.to_nat (retryAttempts (config s)))%nat ->
             deliveryError (net (fetches w + i)) <> None) ->
  exists w',
    flush net s w =
      (Throw (exhaustedError net (Z.to_nat (retryAttempts (config s)))
                (fetches w)),
       afterFailure s
         (skipn (batchLength (config s) (length (eventQueue s)))
                (eventQueue s)),
       w')
    /\ fetches w' = (fetches w + Z.to_nat (retryAttempts (config s)))%nat.
Proof.
  intros Hflag Hq Hfail.
  rewrite (flush_run s w Hflag Hq). cbv zeta.
  set (k := batchLength _ _).
  destruct (sendEvents_all_fail (firstn k (eventQueue s))
              (inFlight s (skipn k (eventQueue s))) w Hfail)
    as [w1 [Hsend Hcount]].
  rewrite Hsend. cbn [config inFlight set_eventQueue set_isFlushInProgress].
  eexists. split; [reflexivity|].
  cbn [config inFlight set_eventQueue set_isFlushInProgress] in Hcount.
  exact Hcount.
Qed.

(** ** What a flush does *)

(** C3: a [flush()] that finds a flush in progress, or the queue empty,
    returns 0 and throws nothing; it makes no delivery attempt (no fetch, no
    sleep, nothing logged) and leaves the counters and the queue as they
    were: no field and nothing in the world changes. *)
Theorem flush_noop (s : Service Props R) (w : World Props) :
  isFlushInProgress s = true \/ eventQueue s = [] ->
  exists s' w',
    flush net s w = (Return 0, s', w')
    /\ fetches w' = fetches w
    /\ log w' = log w
    /\ getMetrics s' = getMetrics s
    /\ eventQueue s' = eventQueue s
    /\ s' = s
    /\ w' = w.
Proof.
  intros Hidle. exists s, w.
  assert (Hrun : flush net s w = (Return 0, s, w)).
  { unfold flush, bind, this.
    destruct Hidle as [Hflag | Hq].
    - rewrite Hflag. reflexivity.
    - rewrite Hq. cbn [length Z.of_nat Z.eqb]. rewrite orb_true_r.
      reflexivity. }
  rewrite Hrun. repeat split.
Qed.

(** C1, amended: in a state with a queue that is not empty and no flush in
    progress, when each delivery attempt of the batch fails, [flush()] adds
    one to the failed-flush counter and changes no other counter, throws to
    its caller, leaves the queue without the batch and lowers the flag, so
    that a later flush can run.  What it throws is the error recorded at the
    last attempt when [retryAttempts] is at least 1 (the rejection or the
    HTTP error itself, or [Error('Unknown error')] for a rejection that is
    not an [Error]); below 1 there is no attempt and no fetch, and it throws
    the fallback error. *)
Theorem flush_exhausted (s : Service Props R) (w : World Props) :
  eventQueue s <> [] ->
  isFlushInProgress s = false ->
  (forall i, (i < Z.to_nat (retryAttempts (config s)))%nat ->
             deliveryError (net (fetches w + i)) <> None) ->
  exists v s' w',
    flush net s w = (Throw v, s', w')
    /\ failedFlushes (metrics s') = failedFlushes (metrics s) + 1
    /\ successfulFlushes (metrics s') = successfulFlushes (metrics s)
    /\ totalEvents (metrics s') = totalEvents (metrics s)
    /\ averageFlushTime (metrics s') = averageFlushTime (metrics s)
    /\ eventQueue s' =
         skipn (batchLength (config s) (length (eventQueue s))) (eventQueue s)
    /\ isFlushInProgress s' = false
    /\ config s' = config s
    /\ fetches w' = (fetches w + Z.to_nat (retryAttempts (config s)))%nat
    /\ (forall n e, Z.to_nat (retryAttempts (config s)) = S n ->
                    deliveryError (net (fetches w + n)) = Some e ->
                    v = asError e)
    /\ (retryAttempts (config s) < 1 ->
        v = ErrorObj "Failed to send events after all retry attempts"
        /\ fetches w' = fetches w).
Proof.
  intros Hq Hflag Hfail.
  destruct (flush_all_fail s w Hflag Hq Hfail) as [w' [Hrun Hcount]].
  eexists _, _, w'. split; [exact Hrun|].
  fields. repeat split.
  - exact Hcount.
  - intros n e Hn He. rewrite Hn. unfold exhaustedError. rewrite He. reflexivity.
  - destruct (Z.to_nat (retryAttempts (config s))) eqn:E; [reflexivity | lia].
  - destruct (Z.to_nat (retryAttempts (config s))) eqn:E; lia.
Qed.

(** C2, amended: in a state with a queue that is not empty and no flush in
    progress, a [flush()] that returns (its delivery succeeded) has taken
    [min(max(batchSize, 0), queueLength)] records off the queue; they are the
    oldest ones, in their order, they are the batch that was posted, what
    stays in the queue keeps its order, and the value returned is their
    number.  The flush is counted as successful and the flag is down. *)
Theorem flush_delivers (s s' : Service Props R) (w w' : World Props) (n : Z) :
  eventQueue s <> [] ->
  isFlushInProgress s = false ->
  flush net s w = (Return n, s', w') ->
  let k := Z.min (Z.max (batchSize (config s)) 0)
                 (Z.of_nat (length (eventQueue s))) in
  n = k
  /\ Z.of_nat (length (eventQueue s)) - Z.of_nat (length (eventQueue s')) = k
  /\ eventQueue s = firstn (Z.to_nat k) (eventQueue s) ++ eventQueue s'
  /\ (exists l,
        log w' = l ++ [Post (apiEndpoint (config s))
                         (firstn (Z.to_nat k) (eventQueue s));
                       Emit (flushCompleted n)])
  /\ successfulFlushes (metrics s') = successfulFlushes (metrics s) + 1
  /\ isFlushInProgress s' = false.
Proof.
  intros Hq Hflag Hrun k.
  rewrite (flush_run s w Hflag Hq) in Hrun. cbv zeta in Hrun.
  fold k in Hrun. unfold batchLength in Hrun. fold k in Hrun.
  destruct (sendEvents net (firstn (Z.to_nat k) (eventQueue s))
              (inFlight s (skipn (Z.to_nat k) (eventQueue s))) w)
    as [[c s1] w1] eqn:Hsend.
  destruct c as [[]|v]; [|discriminate Hrun].
  injection Hrun as Hn Hs Hw. subst s' w'.
  apply sendEvents_return_log in Hsend. destruct Hsend as [l Hl].
  assert (Hlen : Z.of_nat (length (firstn (Z.to_nat k) (eventQueue s))) = k).
  { rewrite length_firstn. lia. }
  rewrite Hlen in Hn. subst n.
  fields. repeat split.
  - rewrite length_skipn. lia.
  - symmetry. apply firstn_skipn.
  - exists l. rewrite Hl. fields.
    rewrite Hlen. rewrite <- app_assoc. reflexivity.
Qed.

(** C6: with [retryAttempts] 3 and each attempt failing, a flush of a queue
    that is not empty posts the batch three times, sleeps 2000 ms (2^1
    seconds) after the first failure and 4000 ms (2^2 seconds) after the
    second and not after the third, then throws the error recorded at the
    third attempt; the failed-flush counter goes up by one. *)
Theorem flush_three_attempts (s : Service Props R) (w : World Props) :
  retryAttempts (config s) = 3 ->
  eventQueue s <> [] ->
  isFlushInProgress s = false ->
  (forall i, (i < 3)%nat -> deliveryError (net (fetches w + i)) <> None) ->
  let batch :=
    firstn (batchLength (config s) (length (eventQueue s))) (eventQueue s) in
  let attempt := Post (apiEndpoint (config s)) batch in
  exists e s' w',
    deliveryError (net (fetches w + 2)) = Some e
    /\ flush net s w = (Throw (asError e), s', w')
    /\ log w' =
         log w ++ [attempt; Sleep 2000; attempt; Sleep 4000; attempt;
                   Emit (flushFailed (asError e))]
    /\ fetches w' = (fetches w + 3)%nat
    /\ now w' =
         now w + latency (net (fetches w)) + 2000
               + latency (net (fetches w + 1)) + 4000
               + latency (net (fetches w + 2))
    /\ failedFlushes (metrics s') = failedFlushes (metrics s) + 1.
Proof.
  intros Hr Hq Hflag Hfail batch attempt.
  pose proof (Hfail 0%nat ltac:(lia)) as H0.
  pose proof (Hfail 1%nat ltac:(lia)) as H1.
  pose proof (Hfail 2%nat ltac:(lia)) as H2.
  rewrite Nat.add_0_r in H0.
  destruct (deliveryError (net (fetches w))) as [e0|] eqn:E0; [|congruence].
  destruct (deliveryError (net (fetches w + 1))) as [e1|] eqn:E1; [|congruence].
  destruct (deliveryError (net (fetches w + 2))) as [e2|] eqn:E2; [|congruence].
  rewrite (flush_run s w Hflag Hq). cbv zeta. fold batch.
  unfold sendEvents, bind at 1, this at 1.
  cbn [config inFlight set_eventQueue set_isFlushInProgress].
  rewrite Hr. change (Z.to_nat 3) with 3%nat.
  cbn [sendLoop]. unfold bind, settle, this.
  rewrite postEvents_spec, E0.
  cbn [config inFlight set_eventQueue set_isFlushInProgress].
  rewrite Hr. cbn [Z.ltb Z.compare Pos.compare Pos.compare_cont Z.add Pos.add].
  unfold delay. rewrite postEvents_spec.
  cbn [fetches posted]. replace (S (fetches w)) with (fetches w + 1)%nat by lia.
  rewrite E1.
  cbn [config inFlight set_eventQueue set_isFlushInProgress].
  rewrite Hr. cbn [Z.ltb Z.compare Pos.compare Pos.compare_cont Z.add Pos.add].
  rewrite postEvents_spec.
  cbn [fetches posted]. replace (S (fetches w + 1)) with (fetches w + 2)%nat by lia.
  rewrite E2.
  cbn [config inFlight set_eventQueue set_isFlushInProgress].
  rewrite Hr. cbn [Z.ltb Z.compare Pos.compare Pos.compare_cont Z.add Pos.add].
  unfold ret, throw, orFallback.
  exists e2. eexists _, _. split; [reflexivity|]. split; [reflexivity|].
  unfold posted, logged.
  cbn [log now fetches timerRunning afterFailure metrics failedFlushes].
  change (2 ^ 1 * 1000) with 2000. change (2 ^ 2 * 1000) with 4000.
  fold attempt. repeat split.
  - repeat rewrite <- app_assoc. reflexivity.
  - lia.
Qed.

(** ** What [track] does *)

(** C10: when a [track()] call brings the queue up to [batchSize] and each
    attempt of the flush it triggers fails, the error that flush throws comes
    out of [track()]; the event is in the queue the flush worked on and is
    counted in [totalEvents], and the batch is gone from the queue. *)
Theorem track_propagates_flush_error (eventType userId : string)
    (properties : Props) (s : Service Props R) (w : World Props) :
  isFlushInProgress s = false ->
  Z.of_nat (length (eventQueue s)) + 1 >= batchSize (config s) ->
  (forall i, (i < Z.to_nat (retryAttempts (config s)))%nat ->
             deliveryError (net (fetches w + i)) <> None) ->
  let event := newEvent eventType userId properties (now w) in
  exists v s' w',
    track net eventType userId properties s w = (Throw v, s', w')
    /\ flush net (enqueued s event) (logged (Emit (eventTracked event)) w) =
         (Throw v, s', w')
    /\ totalEvents (metrics s') = totalEvents (metrics s) + 1
    /\ failedFlushes (metrics s') = failedFlushes (metrics s) + 1
    /\ eventQueue s' =
         skipn (batchLength (config s) (length (eventQueue s ++ [event])))
               (eventQueue s ++ [event]).
Proof.
  intros Hflag Hlen Hfail event.
  rewrite track_unfold. cbv zeta. fold event.
  cbn [eventQueue enqueued].
  replace (Z.of_nat (length (eventQueue s ++ [event])) >=? batchSize (config s))
    with true
    by (symmetry; rewrite Z.geb_le, length_app; cbn [length]; lia).
  assert (Hq : eventQueue (enqueued s event) <> []).
  { cbn [eventQueue enqueued]. destruct (eventQueue s); discriminate. }
  destruct (flush_all_fail (enqueued s event)
              (logged (Emit (eventTracked event)) w) Hflag Hq Hfail)
    as (w' & Hrun & _).
  eexists _, _, w'. rewrite Hrun. repeat split.
Qed.

(** C7: with [batchSize] 2 and every delivery succeeding, tracking A, B
    and C on a new dispatcher posts once while the three are tracked: the
    batch A, B, when B brings the queue to two; C stays in the queue.  A
    [flush()] after that posts C alone and returns 1. *)
Theorem three_events_batch_of_two (ep : string) (iv ra : Z) (w0 : World Props)
    (tA uA tB uB tC uC : string) (pA pB pC : Props) :
  1 <= ra ->
  (forall i, deliveryError (net i) = None) ->
  let cfg := {| apiEndpoint := ep; batchSize := 2;
                flushInterval := iv; retryAttempts := ra |} in
  let s0 : Service Props R := fst (newAnalyticsService cfg w0) in
  let w1 := snd (newAnalyticsService (R:=R) cfg w0) in
  let A := newEvent tA uA pA (now w0) in
  let B := newEvent tB uB pB (now w0) in
  let C := newEvent tC uC pC (now w0 + latency (net (fetches w0))) in
  let run := performAll net [CallTrack tA uA pA; CallTrack tB uB pB;
                             CallTrack tC uC pC] s0 w1 in
  eventQueue (fst run) = [C]
  /\ log (snd run) =
       log w1 ++ [Emit (eventTracked A); Emit (eventTracked B);
                  Post ep [A; B]; Emit (flushCompleted 2);
                  Emit (eventTracked C)]
  /\ exists s4 w4,
       flush net (fst run) (snd run) = (Return 1, s4, w4)
       /\ eventQueue s4 = []
       /\ log w4 = log (snd run) ++ [Post ep [C]; Emit (flushCompleted 1)].
Proof.
  intros Hra Hok cfg s0 w1 A B C run.
  unfold run, s0, w1, cfg.
  cbn [newAnalyticsService initializeService bind this setInterval update
       performAll perform].
  fields.
  rewrite (track_unfold tA uA pA). cbv zeta. fields.
  change (Z.of_nat 1 >=? 2) with false. cbv iota.
  rewrite (track_unfold tB uB pB). cbv zeta. fields.
  change (Z.of_nat 2 >=? 2) with true. cbv iota.
  rewrite flush_ok; [|reflexivity|discriminate|exact Hra|apply Hok].
  cbv zeta. fields. unfold batchLength. fields.
  change (Z.to_nat (Z.min (Z.max 2 0) (Z.of_nat 2))) with 2%nat.
  fields.
  rewrite (track_unfold tC uC pC). cbv zeta. fields.
  change (Z.of_nat 1 >=? 2) with false. cbv iota.
  fields. fold A B C.
  split; [reflexivity|]. split.
  { repeat rewrite <- app_assoc. reflexivity. }
  rewrite flush_ok; [|reflexivity|discriminate|exact Hra|apply Hok].
  cbv zeta. fields. unfold batchLength. fields.
  change (Z.to_nat (Z.min (Z.max 2 0) (Z.of_nat 1))) with 1%nat.
  fields.
  eexists _, _. split; [reflexivity|]. split; [reflexivity|].
  fields. repeat rewrite <- app_assoc. reflexivity.
Qed.

(** ** Counters along a run *)

(** ** One iteration of the retry loop *)

Lemma sendLoop_ok_step (events : list (EventData Props)) (n : nat)
    (attempt : Z) lastError (s : Service Props R) (w : World Props) :
  deliveryError (net (fetches w)) = None ->
  sendLoop net events (S n) attempt lastError s w =
    (Return tt, s, posted net (apiEndpoint (config s)) events w).
Proof.
  intros Hok. cbn [sendLoop]. unfold bind, settle.
  rewrite postEvents_spec, Hok. reflexivity.
Qed.

Lemma sendLoop_failed_step (events : list (EventData Props)) (n : nat)
    (attempt : Z) lastError (s : Service Props R) (w : World Props) e0 :
  deliveryError (net (fetches w)) = Some e0 ->
  sendLoop net events (S n) attempt lastError s w =
    sendLoop net events n (attempt + 1) (Some (asError e0)) s
      (let w1 := posted net (apiEndpoint (config s)) events w in
       if attempt <? retryAttempts (config s)
       then {| now := now w1 + timerDelay (2 ^ attempt * 1000);
               fetches := fetches w1;
               timerRunning := timerRunning w1;
               log := log w1 ++ [Sleep (timerDelay (2 ^ attempt * 1000))] |}
       else w1).
Proof.
  intros Hfail. cbn [sendLoop]. unfold bind at 1. unfold settle.
  rewrite postEvents_spec, Hfail. unfold bind at 1. unfold this at 1.
  cbv zeta. destruct (attempt <? retryAttempts (config s)); reflexivity.
Qed.

Lemma delivered_none (w : World Props) : delivered net w w = false.
Proof. unfold delivered. rewrite Nat.ltb_irrefl. reflexivity. Qed.

(** The retry loop returns exactly when the last request it made was
    answered well.  [w0] is the world in which the delivery began. *)
Lemma sendLoop_delivered (events : list (EventData Props)) (remaining : nat) :
  forall attempt lastError (s : Service Props R) (w w0 : World Props),
    (fetches w0 <= fetches w)%nat ->
    ((fetches w0 < fetches w)%nat ->
     deliveryError (net (Nat.pred (fetches w))) <> None) ->
    let r := sendLoop net events remaining attempt lastError s w in
    delivered net w0 (snd r) =
      match fst (fst r) with Return _ => true | Throw _ => false end.
Proof.
  induction remaining as [|n IH];
    intros attempt lastError s w w0 Hle Hlast; cbv zeta.
  - cbn [sendLoop]. unfold throw. cbn [fst snd]. unfold delivered.
    destruct (Nat.ltb_spec (fetches w0) (fetches w)) as [Hlt | Hge];
      [|reflexivity].
    cbn [andb].
    specialize (Hlast Hlt).
    destruct (deliveryError (net (Nat.pred (fetches w))));
      [reflexivity | congruence].
  - destruct (deliveryError (net (fetches w))) as [e|] eqn:E.
    + rewrite (sendLoop_failed_step events n attempt lastError s w e E).
      cbv zeta. apply IH.
      * destruct (attempt <? retryAttempts (config s)); fields; lia.
      * intros _.
        replace (Nat.pred (fetches _)) with (fetches w)
          by (destruct (attempt <? retryAttempts (config s)); reflexivity).
        rewrite E. discriminate.
    + rewrite (sendLoop_ok_step events n attempt lastError s w E).
      cbn [fst snd]. unfold delivered, posted. cbn [fetches Nat.pred].
      rewrite E.
      replace (fetches w0 <? S (fetches w))%nat with true
        by (symmetry; apply Nat.ltb_lt; lia).
      reflexivity.
Qed.

Lemma sendEvents_delivered (events : list (EventData Props))
    (s : Service Props R) (w : World Props) :
  let r := sendEvents net events s w in
  delivered net w (snd r) =
    match fst (fst r) with Return _ => true | Throw _ => false end.
Proof.
  unfold sendEvents, bind, this.
  apply sendLoop_delivered; [lia | intros H; lia].
Qed.

Lemma flush_counters (s : Service Props R) (w : World Props) :
  let s' := snd (fst (flush net s w)) in
  let w' := snd (flush net s w) in
  totalEvents (metrics s') = totalEvents (metrics s)
  /\ countersFollowDelivery net s s' w w'.
Proof.
  unfold countersFollowDelivery.
  destruct (isFlushInProgress s) eqn:Hflag.
  { rewrite flush_skip by (left; exact Hflag). cbn [fst snd].
    split; [reflexivity|].
    left. split; [apply delivered_none | split; reflexivity]. }
  destruct (eventQueue s) as [|e q] eqn:Hq.
  { rewrite flush_skip by (right; exact Hq). cbn [fst snd].
    split; [reflexivity|].
    left. split; [apply delivered_none | split; reflexivity]. }
  rewrite (flush_run s w Hflag) by (rewrite Hq; discriminate).
  cbv zeta.
  match goal with
  | |- context [sendEvents net ?b ?s0 w] =>
      pose proof (sendEvents_delivered b s0 w) as Hd
  end.
  cbv zeta in Hd.
  destruct (sendEvents net _ _ w) as [[c s1] w1]. cbn [fst snd] in Hd.
  destruct c as [[]|v]; unfold countersKept, flushCounted; fields.
  - split; [reflexivity|]. right. split; [exact Hd|].
    split; [reflexivity|].
    replace (successfulFlushes (metrics s) + 1 - 1)
      with (successfulFlushes (metrics s)) by lia.
    reflexivity.
  - split; [reflexivity|]. left. split; [exact Hd|]. split; reflexivity.
Qed.

Lemma perform_counters (c : Call Props) (s : Service Props R) (w : World Props) :
  let s' := fst (perform net c s w) in
  let w' := snd (perform net c s w) in
  totalEvents (metrics s') = totalEvents (metrics s) + trackCalls [c]
  /\ countersFollowDelivery net s s' w w'.
Proof.
  assert (Hidle : countersFollowDelivery net s s w w).
  { left. split; [apply delivered_none | split; reflexivity]. }
  destruct c as [ty uid p | | | ms]; cbn [perform trackCalls].
  - rewrite track_unfold. cbv zeta.
    set (ev := newEvent ty uid p (now w)).
    destruct (_ >=? _).
    + pose proof (flush_counters (enqueued s ev)
                    (logged (Emit (eventTracked ev)) w)) as Hf.
      cbv zeta in Hf.
      destruct (flush net (enqueued s ev) (logged (Emit (eventTracked ev)) w))
        as [[c s2] w2].
      cbn [fst snd] in Hf. destruct Hf as [Ht Hc].
      assert (Hgoal :
        totalEvents (metrics s2) = totalEvents (metrics s) + (1 + 0)
        /\ countersFollowDelivery net s s2 w w2).
      { split; [rewrite Ht; cbn; lia|].
        destruct Hc as [Hc | Hc]; [left | right]; exact Hc. }
      destruct c; exact Hgoal.
    + cbn [fst snd]. split; [cbn; lia|].
      left. split; [exact (delivered_none w) | split; reflexivity].
  - pose proof (flush_counters s w) as Hf. cbv zeta in Hf.
    destruct (flush net s w) as [[c s2] w2]. cbn [fst snd] in *.
    destruct Hf as [Ht Hc]. split; [lia | exact Hc].
  - destruct (timerRunning w); [|cbn; split; [lia | exact Hidle]].
    unfold onInterval, bind, this, try_catch.
    destruct (_ >? _); [|cbn; split; [lia | exact Hidle]].
    pose proof (flush_counters s w) as Hf. cbv zeta in Hf.
    destruct (flush net s w) as [[c s2] w2]. cbn [fst snd] in *.
    destruct Hf as [Ht Hc].
    destruct c as [n|v]; cbn; (split; [lia | exact Hc]).
  - cbn. split; [lia|].
    left. split; [exact (delivered_none w) | split; reflexivity].
Qed.

Lemma performAll_totalEvents (cs : list (Call Props)) :
  forall (s : Service Props R) (w : World Props),
    totalEvents (metrics (fst (performAll net cs s w))) =
      totalEvents (metrics s) + trackCalls cs.
Proof.
  induction cs as [|c cs IH]; intros s w.
  - cbn. lia.
  - cbn [performAll].
    pose proof (perform_counters c s w) as [Ht _].
    destruct (perform net c s w) as [s1 w1]. cbn [fst snd] in Ht.
    rewrite IH, Ht. destruct c; cbn [trackCalls]; lia.
Qed.

Lemma performAll_average (cs : list (Call Props)) :
  forall (s : Service Props R) (w : World Props),
    let s' := fst (performAll net cs s w) in
    let ts := flushDurations net cs s w in
    successfulFlushes (metrics s') =
      successfulFlushes (metrics s) + Z.of_nat (length ts)
    /\ averageFlushTime (metrics s') =
         runningAverage (averageFlushTime (metrics s))
           (successfulFlushes (metrics s)) ts.
Proof.
  induction cs as [|c cs IH]; intros s w.
  - cbn. split; [lia | reflexivity].
  - cbn [performAll flushDurations].
    pose proof (perform_counters c s w) as [_ Hc].
    destruct (perform net c s w) as [s1 w1]. cbn [fst snd] in Hc.
    specialize (IH s1 w1). cbv zeta in IH. destruct IH as [IHn IHa].
    cbv zeta. destruct Hc as [[Hd [Hn Ha]] | [Hd [Hn Ha]]]; rewrite Hd.
    + cbn [app].
      rewrite IHn, IHa, Hn, Ha. split; reflexivity.
    + cbn [app length runningAverage].
      rewrite IHn, IHa, Hn, Ha. split; [lia | reflexivity].
Qed.

(** C5: after any run on a new dispatcher, whatever flushes it holds and
    however they end, [getMetrics().totalEvents] is the number of [track]
    calls of the run.  Each [track] puts one event, stamped with the time of
    the call, at the end of the queue and counts it, before it tests for the
    automatic flush; the queue it leaves is that queue less what a flush took
    off its front. *)
Theorem totalEvents_counts_track_calls :
  (forall (cfg : AnalyticsConfig) (w0 : World Props) (cs : list (Call Props)),
     let st := newAnalyticsService (R:=R) cfg w0 in
     totalEvents (getMetrics (fst (performAll net cs (fst st) (snd st)))) =
       trackCalls cs)
  /\ (forall (eventType userId : string) (properties : Props)
             (s : Service Props R) (w : World Props),
        let event := newEvent eventType userId properties (now w) in
        exists s1 w1,
          eventQueue s1 = eventQueue s ++ [event]
          /\ timestamp event = now w
          /\ totalEvents (metrics s1) = totalEvents (metrics s) + 1
          /\ log w1 = log w ++ [Emit (eventTracked event)]
          /\ track net eventType userId properties s w =
               (if Z.of_nat (length (eventQueue s1)) >=? batchSize (config s)
                then bind (flush net) (fun _ => ret tt) s1 w1
                else (Return tt, s1, w1))
          /\ exists k,
               eventQueue (snd (fst (track net eventType userId properties s w)))
                 = skipn k (eventQueue s ++ [event])).
Proof.
  split.
  - intros cfg w0 cs st. unfold getMetrics. cbn [totalEvents].
    rewrite performAll_totalEvents. reflexivity.
  - intros ty uid p s w event.
    exists (enqueued s event), (logged (Emit (eventTracked event)) w).
    split; [reflexivity|]. split; [reflexivity|]. split; [reflexivity|].
    split; [reflexivity|].
    rewrite track_unfold. cbv zeta. fold event. split.
    + unfold bind, ret.
      destruct (_ >=? _); [|reflexivity].
      destruct (flush net _ _) as [[[n|v] s2] w2]; reflexivity.
    + destruct (_ >=? _); [|exists 0%nat; reflexivity].
      set (s1 := enqueued s event).
      set (w1 := logged (Emit (eventTracked event)) w).
      assert (Hflush : exists k,
                eventQueue (snd (fst (flush net s1 w1))) =
                  skipn k (eventQueue s1)).
      { destruct (isFlushInProgress s1) eqn:Hflag.
        { rewrite flush_skip by (left; exact Hflag). exists 0%nat. reflexivity. }
        destruct (eventQueue s1) as [|e q] eqn:Hq.
        { rewrite flush_skip by (right; exact Hq). exists 0%nat.
          cbn [fst snd]. rewrite Hq. reflexivity. }
        rewrite (flush_run s1 w1 Hflag) by (rewrite Hq; discriminate).
        cbv zeta. rewrite <- Hq.
        exists (batchLength (config s1) (length (eventQueue s1))).
        destruct (sendEvents net _ _ w1) as [[[[]|v] s2] w2]; reflexivity. }
      destruct Hflush as [k Hk]. exists k.
      destruct (flush net s1 w1) as [[[n|v] s2] w2]; exact Hk.
Qed.

(** ** Shutdown *)

Lemma queue_test (q : list (EventData Props)) :
  (Z.of_nat (length q) >? 0) = negb (match q with [] => true | _ => false end).
Proof. destruct q; reflexivity. Qed.



Lemma shutdown_drain (fuel : nat) (s : Service Props R) (w : World Props) :
  shutdown net fuel s w =
    match drain net fuel s (timerCleared s w) with
    | Some (Return _, s2, w2) =>
        Some (Return tt, s2, logged (Emit shutdownDone) w2)
    | Some (Throw v, s2, w2) => Some (Throw v, s2, w2)
    | None => None
    end.
Proof.
  unfold shutdown, timerCleared. destruct (flushTimer s); reflexivity.
Qed.






End Properties.

(** ** The average flush time *)

Lemma ofZ_add (a b : Z) : ofZ (R:=Qc) (a + b) = (ofZ a + ofZ b)%Qc.
Proof.
  unfold ofZ, ExactNumber, Qcplus. apply Q2Qc_eq_iff.
  setoid_rewrite Qred_correct. rewrite inject_Z_plus. reflexivity.
Qed.

Lemma ofZ_nonzero (z : Z) : z <> 0 -> ofZ (R:=Qc) z <> 0%Qc.
Proof.
  intros Hz H. apply Q2Qc_eq_iff in H. unfold Qeq in H. cbn in H. lia.
Qed.

Lemma Qc_div_mul_cancel (x y : Qc) : y <> 0%Qc -> (x / y * y)%Qc = x.
Proof. intros H. field. exact H. Qed.

Lemma Qc_quotient (x y z : Qc) : y <> 0%Qc -> (x * y)%Qc = z -> x = (z / y)%Qc.
Proof. intros Hy <-. field. exact Hy. Qed.

(** In exact arithmetic the incremental mean is the mean: an average over
    [count] values whose sum is [sum], after the values [ts], is the sum of
    all of them over their number. *)
Lemma runningAverage_mean (ts : list Z) :
  forall (avg : Qc) (count sum : Z),
    0 <= count ->
    (avg * ofZ count)%Qc = ofZ sum ->
    ts <> [] ->
    runningAverage avg count ts =
      (ofZ (sum + total ts) / ofZ (count + Z.of_nat (length ts)))%Qc.
Proof.
  induction ts as [|t ts IH]; intros avg count sum Hc Hinv Hne; [congruence|].
  cbn [runningAverage].
  set (avg' := ndiv (nadd (nmul avg (ofZ count)) (ofZ t)) (ofZ (count + 1))).
  assert (Hnz : ofZ (R:=Qc) (count + 1) <> 0%Qc) by (apply ofZ_nonzero; lia).
  assert (Hinv' : (avg' * ofZ (count + 1))%Qc = ofZ (sum + t)).
  { unfold avg'. cbn [ndiv nadd nmul ExactNumber]. rewrite Hinv.
    rewrite Qc_div_mul_cancel by exact Hnz. symmetry. apply ofZ_add. }
  destruct ts as [|t' ts'].
  - cbn [runningAverage total fold_right length].
    replace (sum + (t + 0)) with (sum + t) by lia.
    replace (count + Z.of_nat 1) with (count + 1) by lia.
    apply Qc_quotient; assumption.
  - rewrite (IH avg' (count + 1) (sum + t)); [|lia|exact Hinv'|discriminate].
    replace (sum + t + total (t' :: ts')) with (sum + total (t :: t' :: ts'))
      by (cbn [total fold_right]; lia).
    replace (count + 1 + Z.of_nat (length (t' :: ts')))
      with (count + Z.of_nat (length (t :: t' :: ts')))
      by (cbn [length]; lia).
    reflexivity.
Qed.

(** C4, amended: after any run on a new dispatcher, with failed flushes and
    flushes that do nothing in between in any number, [successfulFlushes] is
    the number k of successful flushes (the flushes whose last request was
    answered well, as [flushDurations] reads them off the network) and
    [averageFlushTime] is their durations t1..tk taken in one at a time,
    each time from the prior average and the count alone: no duration is
    stored.  In exact arithmetic, for
    k >= 1, that value is the arithmetic mean (t1 + ... + tk) / k.  (On
    doubles each step rounds, and the value can differ from the mean.) *)
Theorem averageFlushTime_running_mean :
  (forall (Props R : Type) (NumR : Number R) (net : nat -> FetchReply)
          (cfg : AnalyticsConfig) (w0 : World Props) (cs : list (Call Props)),
     let st := newAnalyticsService (R:=R) cfg w0 in
     let ts := flushDurations net cs (fst st) (snd st) in
     let m := getMetrics (fst (performAll net cs (fst st) (snd st))) in
     successfulFlushes m = Z.of_nat (length ts)
     /\ averageFlushTime m = runningAverage (ofZ 0) 0 ts)
  /\ (forall (Props : Type) (net : nat -> FetchReply)
             (cfg : AnalyticsConfig) (w0 : World Props) (cs : list (Call Props)),
        let st := newAnalyticsService (R:=Qc) cfg w0 in
        let ts := flushDurations net cs (fst st) (snd st) in
        let m := getMetrics (fst (performAll net cs (fst st) (snd st))) in
        ts <> [] ->
        averageFlushTime m =
          (ofZ (total ts) / ofZ (Z.of_nat (length ts)))%Qc).
Proof.
  assert (Hrun : forall (Props R : Type) (NumR : Number R)
                        (net : nat -> FetchReply) (cfg : AnalyticsConfig)
                        (w0 : World Props) (cs : list (Call Props)),
     let st := newAnalyticsService (R:=R) cfg w0 in
     let ts := flushDurations net cs (fst st) (snd st) in
     let m := getMetrics (fst (performAll net cs (fst st) (snd st))) in
     successfulFlushes m = Z.of_nat (length ts)
     /\ averageFlushTime m = runningAverage (ofZ 0) 0 ts).
  { intros Props R NumR net cfg w0 cs st ts m.
    pose proof (performAll_average net cs (fst st) (snd st)) as [Hn Ha].
    unfold m, getMetrics, ts. cbn [successfulFlushes averageFlushTime].
    rewrite Hn, Ha. split; reflexivity. }
  split; [exact Hrun|].
  intros Props net cfg w0 cs st ts m Hne.
  destruct (Hrun Props Qc ExactNumber net cfg w0 cs) as [_ Ha].
  fold st ts m in Ha. rewrite Ha.
  rewrite (runningAverage_mean ts (ofZ 0) 0 0);
    [reflexivity | lia | reflexivity | exact Hne].
Qed.

(** * The properties at sample dispatchers *)

Lemma allDown_fails (i : nat) : deliveryError (allDown i) <> None.
Proof. discriminate. Qed.

Lemma allOk_succeeds (i : nat) : deliveryError (allOk i) = None.
Proof. reflexivity. Qed.

(** A flush asked of a dispatcher that is flushing. *)
Lemma flush_noop_witness :
  isFlushInProgress busyService = true
  /\ eventQueue busyService <> []
  /\ exists s' w',
       flush allOk busyService quietWorld = (Return 0, s', w')
       /\ fetches w' = fetches quietWorld
       /\ getMetrics s' = getMetrics busyService
       /\ eventQueue s' = [evA].
Proof.
  split; [reflexivity|]. split; [discriminate|].
  destruct (flush_noop allOk busyService quietWorld)
    as (s' & w' & Hrun & Hfetches & _ & Hmetrics & Hqueue & _).
  - left. reflexivity.
  - exists s', w'. repeat split; assumption.
Defined.

(** Three failed attempts on a dispatcher with one event. *)
Lemma flush_exhausted_witness :
  exists v s' w',
    flush allDown oneEventService quietWorld = (Throw v, s', w')
    /\ failedFlushes (metrics s') = failedFlushes (metrics oneEventService) + 1
    /\ eventQueue s' = []
    /\ isFlushInProgress s' = false
    /\ v = ErrorObj "HTTP 503: Service Unavailable".
Proof.
  destruct (flush_exhausted allDown oneEventService quietWorld)
    as (v & s' & w' & Hrun & Hfailed & _ & _ & _ & Hqueue & Hflag & _ & _
        & Hlast & _).
  - discriminate.
  - reflexivity.
  - intros i _. apply allDown_fails.
  - exists v, s', w'. repeat split; try assumption.
    apply (Hlast 2%nat (ErrorObj "HTTP 503: Service Unavailable"));
      reflexivity.
Defined.

(** With [retryAttempts] 0 the hypotheses of C1 hold, no attempt is made, and
    what [flush()] throws is the error of no delivery attempt: every attempt,
    had one been made, would have recorded the 503. *)
Lemma flush_exhausted_counterexample :
  eventQueue noAttemptService <> []
  /\ isFlushInProgress noAttemptService = false
  /\ (forall i, (i < Z.to_nat (retryAttempts (config noAttemptService)))%nat ->
                deliveryError (allDown (fetches quietWorld + i)) <> None)
  /\ ~ (exists i e s' w',
          deliveryError (allDown i) = Some e
          /\ flush allDown noAttemptService quietWorld =
               (Throw (asError e), s', w')).
Proof.
  split; [discriminate|]. split; [reflexivity|]. split.
  - intros i _. apply allDown_fails.
  - intros (i & e & s' & w' & He & Hrun).
    cbv in He. injection He as <-.
    vm_compute in Hrun. discriminate Hrun.
Qed.

(** A flush of three events with batch size 2 and a network that answers. *)
Lemma flush_delivers_witness :
  let r := flush allOk threeEventService quietWorld in
  eventQueue threeEventService <> []
  /\ isFlushInProgress threeEventService = false
  /\ fst (fst r) = Return 2
  /\ eventQueue threeEventService = [evA; evB] ++ eventQueue (snd (fst r))
  /\ eventQueue (snd (fst r)) = [evC].
Proof.
  intros r.
  assert (Hq : eventQueue threeEventService <> []) by discriminate.
  assert (Hflag : isFlushInProgress threeEventService = false) by reflexivity.
  assert (Hrun : flush allOk threeEventService quietWorld =
                   (Return 2, snd (fst r), snd r)) by reflexivity.
  destruct (flush_delivers allOk threeEventService (snd (fst r))
              quietWorld (snd r) 2 Hq Hflag Hrun) as (_ & _ & Hsplit & _).
  split; [exact Hq|]. split; [exact Hflag|]. split; [reflexivity|].
  split; [exact Hsplit|]. reflexivity.
Defined.

(** With [batchSize] -1 a flush whose delivery succeeds takes no record off
    the queue, not [min(batchSize, queueLength) = -1] of them. *)
Lemma flush_delivers_counterexample :
  eventQueue negativeBatchService <> []
  /\ isFlushInProgress negativeBatchService = false
  /\ (exists s' w',
        flush allOk negativeBatchService quietWorld = (Return 0, s', w')
        /\ eventQueue s' = eventQueue negativeBatchService)
  /\ ~ (exists n s' w',
          flush allOk negativeBatchService quietWorld = (Return n, s', w')
          /\ Z.of_nat (length (eventQueue negativeBatchService))
             - Z.of_nat (length (eventQueue s')) =
               Z.min (batchSize (config negativeBatchService))
                     (Z.of_nat (length (eventQueue negativeBatchService)))).
Proof.
  split; [discriminate|]. split; [reflexivity|]. split.
  - eexists _, _. split; reflexivity.
  - intros (n & s' & w' & Hrun & Hcount).
    vm_compute in Hrun. injection Hrun as _ <- _.
    vm_compute in Hcount. discriminate Hcount.
Qed.

(** Three attempts against a network that is down. *)
Lemma flush_three_attempts_witness :
  let attempt := Post (apiEndpoint (config oneEventService)) [evA] in
  exists e s' w',
    flush allDown oneEventService quietWorld = (Throw e, s', w')
    /\ e = ErrorObj "HTTP 503: Service Unavailable"
    /\ log w' = [attempt; Sleep 2000; attempt; Sleep 4000; attempt;
                 Emit (flushFailed e)]
    /\ failedFlushes (metrics s') = 1.
Proof.
  intros attempt.
  destruct (flush_three_attempts allDown oneEventService quietWorld)
    as (e & s' & w' & He & Hrun & Hlog & _ & _ & Hfailed).
  - reflexivity.
  - discriminate.
  - reflexivity.
  - intros i _. apply allDown_fails.
  - injection He as <-.
    eexists _, s', w'. split; [exact Hrun|]. split; [reflexivity|].
    split; [exact Hlog | exact Hfailed].
Defined.

(** The second event of a batch of two, tracked while the network is down. *)
Lemma track_propagates_flush_error_witness :
  exists s' w',
    track allDown "B" "user123" "{}" almostFullService quietWorld =
      (Throw (ErrorObj "HTTP 503: Service Unavailable"), s', w')
    /\ totalEvents (metrics s') = totalEvents (metrics almostFullService) + 1
    /\ failedFlushes (metrics s') = 1
    /\ eventQueue s' = [].
Proof.
  destruct (track_propagates_flush_error allDown "B" "user123" "{}"
              almostFullService quietWorld)
    as (v & s' & w' & Hrun & Hflush & Htotal & Hfailed & Hqueue).
  - reflexivity.
  - cbn. lia.
  - intros i _. apply allDown_fails.
  - exists s', w'.
    assert (Hv : v = ErrorObj "HTTP 503: Service Unavailable").
    { vm_compute in Hflush. injection Hflush as Hv _ _. symmetry. exact Hv. }
    subst v. repeat split; assumption.
Defined.

(** A, B and C tracked on [createAnalyticsService({ batchSize: 2 })]. *)
Lemma three_events_batch_of_two_witness :
  let st := createAnalyticsService (R:=float) batchOfTwo quietWorld in
  let s0 : Service string float := fst st in
  let w1 := snd st in
  let run := performAll allOk [CallTrack "A" "u1" "{}"; CallTrack "B" "u2" "{}";
                               CallTrack "C" "u3" "{}"] s0 w1 in
  eventQueue (fst run) = [newEvent "C" "u3" "{}" 1005]
  /\ exists s4 w4,
       flush allOk (fst run) (snd run) = (Return 1, s4, w4)
       /\ eventQueue s4 = [].
Proof.
  destruct (three_events_batch_of_two (R:=float) allOk
              "https://analytics.example.com/events" 30000 3 quietWorld
              "A" "u1" "B" "u2" "C" "u3" "{}" "{}" "{}"
              ltac:(lia) allOk_succeeds)
    as (Hqueue & _ & s4 & w4 & Hflush & Hempty & _).
  split; [exact Hqueue|].
  exists s4, w4. split; [exact Hflush | exact Hempty].
Defined.





(** Eight flushes in exact arithmetic, one attempt each, the second of
    them failing after 7 ms: the seven successful ones took 29, 0, ..., 0 ms,
    and the average is their mean 29/7; the failed one is counted apart. *)
Lemma averageFlushTime_running_mean_witness :
  let st := newAnalyticsService (R:=Qc) (configOf 1 1) quietWorld in
  let ts := flushDurations slowDownInstant eightTracks (fst st) (snd st) in
  let m := getMetrics
             (fst (performAll slowDownInstant eightTracks (fst st) (snd st))) in
  ts = [29; 0; 0; 0; 0; 0; 0]
  /\ successfulFlushes m = 7
  /\ failedFlushes m = 1
  /\ averageFlushTime m = Q2Qc (29 # 7).
Proof.
  intros st ts m.
  assert (Hts : ts = [29; 0; 0; 0; 0; 0; 0]) by (vm_compute; reflexivity).
  split; [exact Hts|].
  destruct averageFlushTime_running_mean as [Hrun Hmean].
  split.
  { unfold m, st.
    rewrite (proj1 (Hrun string Qc ExactNumber slowDownInstant (configOf 1 1)
                      quietWorld eightTracks)).
    fold st ts. rewrite Hts. reflexivity. }
  split; [vm_compute; reflexivity|].
  unfold m, st.
  rewrite (Hmean string slowDownInstant (configOf 1 1) quietWorld eightTracks).
  - fold st ts. rewrite Hts. apply Qc_is_canon. reflexivity.
  - fold st ts. rewrite Hts. discriminate.
Defined.

(** The same eight flushes on doubles: the average is 3.6250000000000004,
    not the mean 29/8 = 3.625. *)
Lemma averageFlushTime_running_mean_counterexample :
  let st := newAnalyticsService (R:=float) (configOf 1 3) quietWorld in
  let ts := flushDurations slowThenInstant eightTracks (fst st) (snd st) in
  let m := getMetrics
             (fst (performAll slowThenInstant eightTracks (fst st) (snd st))) in
  ts = [29; 0; 0; 0; 0; 0; 0; 0]
  /\ successfulFlushes m = 8
  /\ averageFlushTime m <> ndiv (ofZ (total ts)) (ofZ (Z.of_nat (length ts))).
Proof.
  intros st ts m.
  split; [vm_compute; reflexivity|]. split; [vm_compute; reflexivity|].
  intros H.
  apply (f_equal (fun x => PrimFloat.eqb x 3.625%float)) in H.
  vm_compute in H. discriminate H.
Qed.

(** * Further properties of the dispatcher *)

Section Delivery.

Context {Props R : Type} {NumR : Number R}.
Variable net : nat -> FetchReply.

(** ** Backoff *)

(** Up to attempt 21 the delay asked for, [2 ^ attempt * 1000] ms, is within
    the range of the timers; from attempt 22 on it is above it, and the
    timer runs 1 ms. *)
Lemma timerDelay_doubling (attempt : Z) :
  0 <= attempt <= 21 ->
  timerDelay (2 ^ attempt * 1000) = 2 ^ attempt * 1000.
Proof.
  intros Ha. unfold timerDelay, TIMEOUT_MAX.
  assert (Hlo : 0 < 2 ^ attempt) by (apply Z.pow_pos_nonneg; lia).
  assert (Hhi : 2 ^ attempt <= 2 ^ 21) by (apply Z.pow_le_mono_r; lia).
  change (2 ^ 21) with 2097152 in Hhi.
  replace (1 <=? 2 ^ attempt * 1000) with true
    by (symmetry; apply Z.leb_le; lia).
  replace (2 ^ attempt * 1000 <=? 2147483647) with true
    by (symmetry; apply Z.leb_le; lia).
  reflexivity.
Qed.

Lemma timerDelay_overflow (attempt : Z) :
  22 <= attempt -> timerDelay (2 ^ attempt * 1000) = 1.
Proof.
  intros Ha. unfold timerDelay, TIMEOUT_MAX.
  assert (Hlo : 2 ^ 22 <= 2 ^ attempt) by (apply Z.pow_le_mono_r; lia).
  change (2 ^ 22) with 4194304 in Hlo.
  replace (2 ^ attempt * 1000 <=? 2147483647) with false
    by (symmetry; apply Z.leb_gt; lia).
  rewrite andb_false_r. reflexivity.
Qed.

Lemma backoffTime_doubling (failures : nat) :
  forall attempt,
    0 <= attempt ->
    attempt + Z.of_nat failures <= 22 ->
    backoffTime failures attempt =
      1000 * (2 ^ (attempt + Z.of_nat failures) - 2 ^ attempt).
Proof.
  induction failures as [|f IH]; intros attempt Ha Hb.
  - cbn [backoffTime]. replace (attempt + Z.of_nat 0) with attempt by lia.
    lia.
  - cbn [backoffTime]. rewrite timerDelay_doubling by lia.
    rewrite IH by lia.
    replace (attempt + 1 + Z.of_nat f) with (attempt + Z.of_nat (S f)) by lia.
    replace (2 ^ (attempt + 1)) with (2 * 2 ^ attempt)
      by (rewrite Z.pow_add_r by lia; lia).
    lia.
Qed.

Lemma backoffTime_overflow (failures : nat) :
  forall attempt,
    22 <= attempt -> backoffTime failures attempt = Z.of_nat failures.
Proof.
  induction failures as [|f IH]; intros attempt Ha; [reflexivity|].
  cbn [backoffTime]. rewrite timerDelay_overflow by lia.
  rewrite IH by lia. lia.
Qed.

Lemma backoffTime_app (f1 f2 : nat) :
  forall attempt,
    backoffTime (f1 + f2) attempt =
      backoffTime f1 attempt + backoffTime f2 (attempt + Z.of_nat f1).
Proof.
  induction f1 as [|f1 IH]; intros attempt.
  - cbn [backoffTime Nat.add]. replace (attempt + Z.of_nat 0) with attempt by lia.
    lia.
  - cbn [backoffTime Nat.add]. rewrite IH.
    replace (attempt + 1 + Z.of_nat f1) with (attempt + Z.of_nat (S f1)) by lia.
    lia.
Qed.

(** The whole back-off after [failures] failed attempts, from attempt 1:
    2000 + 4000 + ... while the delay doubles, and 1 ms for each failure
    from the 22nd on. *)
Lemma backoffTime_total (failures : nat) :
  backoffTime failures 1 =
    if Z.of_nat failures <=? 21
    then 1000 * (2 ^ (Z.of_nat failures + 1) - 2)
    else 1000 * (2 ^ 22 - 2) + (Z.of_nat failures - 21).
Proof.
  destruct (Z.leb_spec (Z.of_nat failures) 21) as [Hle | Hgt].
  - rewrite backoffTime_doubling by lia.
    replace (1 + Z.of_nat failures) with (Z.of_nat failures + 1) by lia.
    change (2 ^ 1) with 2. reflexivity.
  - replace failures with (21 + (failures - 21))%nat at 1 by lia.
    rewrite backoffTime_app.
    rewrite (backoffTime_doubling 21 1) by lia.
    rewrite backoffTime_overflow by lia.
    change (1 + Z.of_nat 21) with 22. change (2 ^ 1) with 2. lia.
Qed.

Lemma sendLoop_backoff (events : list (EventData Props)) (k : nat) :
  forall (remaining : nat) (attempt : Z) lastError
         (s : Service Props R) (w : World Props),
    (k < remaining)%nat ->
    attempt + Z.of_nat remaining - 1 = retryAttempts (config s) ->
    (forall i, (i < k)%nat -> deliveryError (net (fetches w + i)) <> None) ->
    deliveryError (net (fetches w + k)) = None ->
    exists w',
      sendLoop net events remaining attempt lastError s w = (Return tt, s, w')
      /\ log w' =
           log w ++ backoffLog (Post (apiEndpoint (config s)) events) k attempt
                 ++ [Post (apiEndpoint (config s)) events]
      /\ fetches w' = (fetches w + k + 1)%nat
      /\ now w' = now w + totalLatency net (fetches w) (S k)
                        + backoffTime k attempt
      /\ timerRunning w' = timerRunning w.
Proof.
  induction k as [|k IH];
    intros remaining attempt lastError s w Hk Hinv Hfail Hok.
  - destruct remaining as [|n]; [lia|].
    rewrite Nat.add_0_r in Hok. rewrite sendLoop_ok_step by exact Hok.
    eexists. split; [reflexivity|]. fields.
    cbn [backoffLog backoffTime totalLatency app].
    repeat split; lia.
  - destruct remaining as [|n]; [lia|].
    pose proof (Hfail 0%nat ltac:(lia)) as H0. rewrite Nat.add_0_r in H0.
    destruct (deliveryError (net (fetches w))) as [e0|] eqn:E0; [|congruence].
    rewrite (sendLoop_failed_step net events n attempt lastError s w e0 E0).
    cbv zeta.
    replace (attempt <? retryAttempts (config s)) with true
      by (symmetry; apply Z.ltb_lt; lia).
    match goal with
    | |- context [sendLoop _ _ _ _ _ _ ?w1] =>
        destruct (IH n (attempt + 1) (Some (asError e0)) s w1)
          as (w' & Hrun & Hlog & Hf & Hnow & Ht)
    end.
    + lia.
    + lia.
    + fields. intros i Hi.
      replace (S (fetches w) + i)%nat with (fetches w + S i)%nat by lia.
      apply Hfail. lia.
    + fields. replace (S (fetches w) + k)%nat with (fetches w + S k)%nat by lia.
      exact Hok.
    + exists w'. split; [exact Hrun|].
      cbn [now fetches timerRunning log posted] in Hlog, Hf, Hnow, Ht.
      split.
      { rewrite Hlog. cbn [backoffLog]. repeat rewrite <- app_assoc.
        reflexivity. }
      split; [lia|]. split; [|exact Ht].
      rewrite Hnow. cbn [totalLatency backoffTime]. lia.
Qed.

Lemma sendLoop_exhausted_backoff (events : list (EventData Props))
    (remaining : nat) :
  forall (attempt : Z) lastError (s : Service Props R) (w : World Props),
    (0 < remaining)%nat ->
    attempt + Z.of_nat remaining - 1 = retryAttempts (config s) ->
    (forall i, (i < remaining)%nat ->
               deliveryError (net (fetches w + i)) <> None) ->
    exists v w',
      sendLoop net events remaining attempt lastError s w = (Throw v, s, w')
      /\ log w' =
           log w ++ backoffLog (Post (apiEndpoint (config s)) events)
                      (remaining - 1) attempt
                 ++ [Post (apiEndpoint (config s)) events]
      /\ fetches w' = (fetches w + remaining)%nat
      /\ now w' = now w + totalLatency net (fetches w) remaining
                        + backoffTime (remaining - 1) attempt
      /\ timerRunning w' = timerRunning w.
Proof.
  induction remaining as [|n IH];
    intros attempt lastError s w Hpos Hinv Hfail; [lia|].
  pose proof (Hfail 0%nat ltac:(lia)) as H0. rewrite Nat.add_0_r in H0.
  destruct (deliveryError (net (fetches w))) as [e0|] eqn:E0; [|congruence].
  rewrite (sendLoop_failed_step net events n attempt lastError s w e0 E0).
  cbv zeta.
  destruct n as [|m].
  - replace (attempt <? retryAttempts (config s)) with false
      by (symmetry; apply Z.ltb_ge; lia).
    cbn [sendLoop]. unfold throw.
    eexists _, _. split; [reflexivity|]. fields.
    cbn [backoffLog backoffTime totalLatency app Nat.sub].
    repeat split; lia.
  - replace (attempt <? retryAttempts (config s)) with true
      by (symmetry; apply Z.ltb_lt; lia).
    match goal with
    | |- context [sendLoop _ _ _ _ _ _ ?w1] =>
        destruct (IH (attempt + 1) (Some (asError e0)) s w1)
          as (v & w' & Hrun & Hlog & Hf & Hnow & Ht)
    end.
    + lia.
    + lia.
    + fields. intros i Hi.
      replace (S (fetches w) + i)%nat with (fetches w + S i)%nat by lia.
      apply Hfail. lia.
    + exists v, w'. split; [exact Hrun|].
      cbn [now fetches timerRunning log posted] in Hlog, Hf, Hnow, Ht.
      split.
      { rewrite Hlog.
        replace (S (S m) - 1)%nat with (S (S m - 1)) by lia.
        cbn [backoffLog]. repeat rewrite <- app_assoc. reflexivity. }
      split; [lia|]. split; [|exact Ht].
      rewrite Hnow.
      replace (S (S m) - 1)%nat with (S (S m - 1)) by lia.
      cbn [totalLatency backoffTime]. lia.
Qed.

(** X1: when the first [k] attempts of a delivery fail and the next one,
    still within [retryAttempts], is answered well, [sendEvents] returns
    after [k + 1] POSTs of the same batch, with a sleep after each failed
    one.  The timer after attempt i is set for 2^i seconds; up to i = 21 it
    runs that long, 1000 * (2^(k+1) - 2) ms in all when k <= 21; from
    i = 22 on the delay is above what a timer takes (2^31 - 1 ms) and the
    timer runs 1 ms.  The clock ends that much later, on top of the time
    the fetches took. *)
Theorem sendEvents_retries_until_success (events : list (EventData Props))
    (k : nat) (s : Service Props R) (w : World Props) :
  Z.of_nat k < retryAttempts (config s) ->
  (forall i, (i < k)%nat -> deliveryError (net (fetches w + i)) <> None) ->
  deliveryError (net (fetches w + k)) = None ->
  exists w',
    sendEvents net events s w = (Return tt, s, w')
    /\ log w' =
         log w ++ backoffLog (Post (apiEndpoint (config s)) events) k 1
               ++ [Post (apiEndpoint (config s)) events]
    /\ fetches w' = (fetches w + k + 1)%nat
    /\ now w' = now w + totalLatency net (fetches w) (S k)
                      + (if Z.of_nat k <=? 21
                         then 1000 * (2 ^ (Z.of_nat k + 1) - 2)
                         else 1000 * (2 ^ 22 - 2) + (Z.of_nat k - 21)).
Proof.
  intros Hk Hfail Hok. unfold sendEvents, bind, this.
  destruct (sendLoop_backoff events k (Z.to_nat (retryAttempts (config s))) 1
              None s w) as (w' & Hrun & Hlog & Hf & Hnow & _);
    try assumption; try lia.
  exists w'. split; [exact Hrun|]. split; [exact Hlog|]. split; [exact Hf|].
  rewrite Hnow, backoffTime_total. reflexivity.
Qed.

(** X2: when each of the [retryAttempts >= 1] attempts of a delivery fails,
    [sendEvents] throws after exactly [retryAttempts] POSTs of the same
    batch, with a sleep after each but the last.  The timer after attempt i
    is set for 2^i seconds; up to i = 21 it runs that long,
    1000 * (2^retryAttempts - 2) ms in all when [retryAttempts <= 22]; from
    i = 22 on the delay is above what a timer takes (2^31 - 1 ms) and the
    timer runs 1 ms.  The clock ends that much later, on top of the time
    the fetches took. *)
Theorem sendEvents_exhausted_backoff (events : list (EventData Props))
    (s : Service Props R) (w : World Props) :
  1 <= retryAttempts (config s) ->
  (forall i, (i < Z.to_nat (retryAttempts (config s)))%nat ->
             deliveryError (net (fetches w + i)) <> None) ->
  exists v w',
    sendEvents net events s w = (Throw v, s, w')
    /\ log w' =
         log w ++ backoffLog (Post (apiEndpoint (config s)) events)
                    (Z.to_nat (retryAttempts (config s)) - 1) 1
               ++ [Post (apiEndpoint (config s)) events]
    /\ fetches w' = (fetches w + Z.to_nat (retryAttempts (config s)))%nat
    /\ now w' = now w
                + totalLatency net (fetches w)
                    (Z.to_nat (retryAttempts (config s)))
                + (if retryAttempts (config s) <=? 22
                   then 1000 * (2 ^ retryAttempts (config s) - 2)
                   else 1000 * (2 ^ 22 - 2)
                        + (retryAttempts (config s) - 22)).
Proof.
  intros Hr Hfail. unfold sendEvents, bind, this.
  destruct (sendLoop_exhausted_backoff events
              (Z.to_nat (retryAttempts (config s))) 1 None s w)
    as (v & w' & Hrun & Hlog & Hf & Hnow & _);
    try assumption; try lia.
  exists v, w'. split; [exact Hrun|]. split; [exact Hlog|]. split; [exact Hf|].
  rewrite Hnow, backoffTime_total.
  replace (Z.of_nat (Z.to_nat (retryAttempts (config s)) - 1))
    with (retryAttempts (config s) - 1) by lia.
  destruct (Z.leb_spec (retryAttempts (config s) - 1) 21);
    destruct (Z.leb_spec (retryAttempts (config s)) 22); try lia.
  replace (retryAttempts (config s) - 1 + 1) with (retryAttempts (config s))
    by lia.
  reflexivity.
Qed.

End Delivery.

Section Accounting.

Context {Props R : Type} {NumR : Number R}.
Variable net : nat -> FetchReply.

(** ** What a delivery can do, whatever the network does *)

Lemma sendLoop_effects (events : list (EventData Props)) (remaining : nat) :
  forall (attempt : Z) lastError (s : Service Props R) (w : World Props),
    (forall v, lastError = Some v -> exists m, v = ErrorObj m) ->
    let r := sendLoop net events remaining attempt lastError s w in
    (exists l,
       log (snd r) = log w ++ l
       /\ Forall (attemptEffect (Post (apiEndpoint (config s)) events)) l)
    /\ (fetches w <= fetches (snd r) <= fetches w + remaining)%nat
    /\ timerRunning (snd r) = timerRunning w
    /\ (forall v, fst (fst r) = Throw v -> exists m, v = ErrorObj m).
Proof.
  induction remaining as [|n IH]; intros attempt lastError s w Hlast r.
  - unfold r. cbn [sendLoop]. unfold throw. cbn [fst snd].
    split; [exists []; split; [symmetry; apply app_nil_r | constructor]|].
    split; [lia|]. split; [reflexivity|].
    intros v Hv. injection Hv as <-.
    destruct lastError as [e|]; cbn [orFallback].
    + apply Hlast. reflexivity.
    + eexists. reflexivity.
  - unfold r.
    destruct (deliveryError (net (fetches w))) as [e0|] eqn:E0.
    + rewrite (sendLoop_failed_step net events n attempt lastError s w e0 E0).
      cbv zeta.
      assert (Herr : forall v, Some (asError e0) = Some v ->
                               exists m, v = ErrorObj m).
      { intros v Hv. injection Hv as <-. destruct e0; eexists; reflexivity. }
      set (W := if attempt <? retryAttempts (config s) then _ else _).
      assert (HW : (exists l0,
                      log W = log w ++ l0
                      /\ Forall (attemptEffect
                                   (Post (apiEndpoint (config s)) events)) l0)
                   /\ fetches W = S (fetches w)
                   /\ timerRunning W = timerRunning w).
      { unfold W. destruct (attempt <? retryAttempts (config s)); fields.
        - split; [|split; reflexivity].
          exists [Post (apiEndpoint (config s)) events;
                  Sleep (timerDelay (2 ^ attempt * 1000))].
          split; [rewrite <- app_assoc; reflexivity|].
          constructor; [left; reflexivity|].
          constructor; [right; eexists; reflexivity | constructor].
        - split; [|split; reflexivity].
          exists [Post (apiEndpoint (config s)) events].
          split; [reflexivity|].
          constructor; [left; reflexivity | constructor]. }
      destruct HW as ((l0 & Hl0 & Hd0) & HfW & HtW).
      pose proof (IH (attempt + 1) (Some (asError e0)) s W Herr) as Hrec.
      cbv zeta in Hrec. destruct Hrec as ((l & Hl & Hd) & Hf & Ht & Hv).
      split.
      { exists (l0 ++ l). split.
        - rewrite Hl, Hl0, app_assoc. reflexivity.
        - apply Forall_app. split; assumption. }
      split; [lia|]. split; [congruence | exact Hv].
    + rewrite (sendLoop_ok_step net events n attempt lastError s w E0).
      cbn [fst snd]. fields.
      split.
      { exists [Post (apiEndpoint (config s)) events].
        split; [reflexivity|].
        constructor; [left; reflexivity | constructor]. }
      split; [lia|]. split; [reflexivity|]. discriminate.
Qed.

Lemma sendEvents_effects (events : list (EventData Props))
    (s : Service Props R) (w : World Props) :
  let r := sendEvents net events s w in
  (exists l,
     log (snd r) = log w ++ l
     /\ Forall (attemptEffect (Post (apiEndpoint (config s)) events)) l)
  /\ (fetches w <= fetches (snd r)
      <= fetches w + Z.to_nat (retryAttempts (config s)))%nat
  /\ timerRunning (snd r) = timerRunning w
  /\ (forall v, fst (fst r) = Throw v -> exists m, v = ErrorObj m).
Proof.
  unfold sendEvents, bind, this. apply sendLoop_effects. discriminate.
Qed.

Lemma batchLength_le (cfg : AnalyticsConfig) (len : nat) :
  (batchLength cfg len <= len)%nat.
Proof. unfold batchLength. lia. Qed.

(** What a flush does, whatever the network does: nothing, or the batch
    leaves the queue, the delivery runs, and the flush ends with one
    notification. *)
Lemma flush_effect (s : Service Props R) (w : World Props) :
  let r := flush net s w in
  let k := batchLength (config s) (length (eventQueue s)) in
  (r = (Return 0, s, w)
   /\ (isFlushInProgress s = true \/ eventQueue s = []))
  \/ (isFlushInProgress s = false /\ eventQueue s <> []
      /\ exists w1 l,
           log w1 = log w ++ l
           /\ Forall (attemptEffect
                        (Post (apiEndpoint (config s))
                           (firstn k (eventQueue s)))) l
           /\ (fetches w <= fetches w1
               <= fetches w + Z.to_nat (retryAttempts (config s)))%nat
           /\ timerRunning w1 = timerRunning w
           /\ ((r = (Return (Z.of_nat k),
                     afterDelivery s (skipn k (eventQueue s)) (now w1 - now w),
                     logged (Emit (flushCompleted (Z.of_nat k))) w1))
               \/ (exists m,
                     r = (Throw (ErrorObj m),
                          afterFailure s (skipn k (eventQueue s)),
                          logged (Emit (flushFailed (ErrorObj m))) w1)))).
Proof.
  cbv zeta.
  destruct (isFlushInProgress s) eqn:Hflag.
  { left. split; [apply flush_skip; left; exact Hflag | left; reflexivity]. }
  destruct (eventQueue s) as [|e q] eqn:Hq.
  { left. split; [apply flush_skip; right; exact Hq | right; reflexivity]. }
  right. split; [reflexivity|]. split; [discriminate|].
  rewrite (flush_run net s w Hflag) by (rewrite Hq; discriminate).
  cbv zeta. rewrite <- Hq.
  set (k := batchLength (config s) (length (eventQueue s))).
  pose proof (sendEvents_effects (firstn k (eventQueue s))
                (inFlight s (skipn k (eventQueue s))) w) as Heff.
  cbv zeta in Heff.
  destruct (sendEvents net (firstn k (eventQueue s))
              (inFlight s (skipn k (eventQueue s))) w) as [[c s1] w1].
  cbn [fst snd] in Heff. destruct Heff as ((l & Hl & Hd) & Hf & Ht & Hv).
  cbn [config inFlight set_eventQueue set_isFlushInProgress] in Hf, Hd.
  exists w1, l. split; [exact Hl|]. split; [exact Hd|].
  split; [exact Hf|]. split; [exact Ht|].
  assert (Hk : length (firstn k (eventQueue s)) = k).
  { rewrite length_firstn. pose proof (batchLength_le (config s)
                                         (length (eventQueue s))).
    fold k in H. lia. }
  rewrite Hk.
  destruct c as [[]|v].
  - left. reflexivity.
  - right. destruct (Hv v eq_refl) as [m ->]. exists m. reflexivity.
Qed.

(** X3: whatever the network does, a [flush()] makes at most
    [retryAttempts] fetches, and none when [retryAttempts] is below 1; each
    POST it makes carries the same batch, the front of the queue as it was at
    the call, to the configured endpoint; it leaves the periodic timer as it
    is. *)
Theorem flush_attempts_bounded (s : Service Props R) (w : World Props) :
  let w' := snd (flush net s w) in
  let batch :=
    firstn (batchLength (config s) (length (eventQueue s))) (eventQueue s) in
  (fetches w <= fetches w'
   <= fetches w + Z.to_nat (retryAttempts (config s)))%nat
  /\ timerRunning w' = timerRunning w
  /\ exists l,
       log w' = log w ++ l
       /\ forall endpoint events,
            In (Post endpoint events) l ->
            endpoint = apiEndpoint (config s) /\ events = batch.
Proof.
  cbv zeta. pose proof (flush_effect s w) as H. cbv zeta in H.
  destruct H as [[-> _] | (_ & _ & w1 & l & Hl & Hd & Hf & Ht & Hr)].
  - cbn [snd]. split; [lia|]. split; [reflexivity|].
    exists []. split; [symmetry; apply app_nil_r|]. intros ? ? [].
  - assert (Hposts : forall n endpoint events,
              In (Post endpoint events) (l ++ [Emit n]) ->
              endpoint = apiEndpoint (config s)
              /\ events = firstn (batchLength (config s)
                                    (length (eventQueue s))) (eventQueue s)).
    { intros n endpoint events Hin. apply in_app_or in Hin.
      destruct Hin as [Hin | [Hin | []]]; [|discriminate Hin].
      rewrite Forall_forall in Hd.
      destruct (Hd _ Hin) as [Heq | [ms Heq]]; [|discriminate Heq].
      injection Heq as -> ->. split; reflexivity. }
    destruct Hr as [-> | [m ->]]; cbn [snd]; fields;
      (split; [exact Hf|]; split; [exact Ht|];
       eexists; split; [rewrite Hl, <- app_assoc; reflexivity|];
       apply Hposts).
Qed.

(** X4: whatever rejects a fetch, what [flush()] throws is an [Error]
    object: a rejection that is not an [Error] is replaced by
    [Error('Unknown error')] before it is recorded. *)
Theorem flush_throws_error_object (s s' : Service Props R)
    (w w' : World Props) (v : JsValue) :
  flush net s w = (Throw v, s', w') ->
  exists message, v = ErrorObj message.
Proof.
  intros Hrun. pose proof (flush_effect s w) as H. cbv zeta in H.
  rewrite Hrun in H.
  destruct H as [[Heq _] | (_ & _ & w1 & l & _ & _ & _ & _ & [Heq | [m Heq]])];
    try discriminate Heq.
  injection Heq as -> _ _. exists m. reflexivity.
Qed.

End Accounting.

Section Runs.

Context {Props R : Type} {NumR : Number R}.
Variable net : nat -> FetchReply.

(** ** Tallies over the log *)

Lemma tally_app (f : Effect Props -> Z) (l1 l2 : list (Effect Props)) :
  tally f (l1 ++ l2) = tally f l1 + tally f l2.
Proof. induction l1 as [|e l1 IH]; cbn [tally app]; lia. Qed.

Lemma tally_attempts (f : Effect Props -> Z) (post : Effect Props)
    (l : list (Effect Props)) :
  f post = 0 ->
  (forall ms, f (Sleep ms) = 0) ->
  Forall (attemptEffect post) l ->
  tally f l = 0.
Proof.
  intros Hpost Hsleep. induction 1 as [|e l [-> | [ms ->]] _ IH];
    cbn [tally]; rewrite ?Hpost, ?Hsleep, ?IH; reflexivity.
Qed.

(** ** The accounts of a call *)

Lemma accountsKept_refl (s : Service Props R) (w : World Props) :
  accountsKept s w s w.
Proof. unfold accountsKept. repeat split; lia. Qed.

Lemma accountsKept_trans (s1 s2 s3 : Service Props R) (w1 w2 w3 : World Props) :
  accountsKept s1 w1 s2 w2 -> accountsKept s2 w2 s3 w3 ->
  accountsKept s1 w1 s3 w3.
Proof.
  unfold accountsKept.
  intros (Hc & Ht & Hf & Hr & Ha & Hb & Hd & He & Hu & Hz)
         (Hc' & Ht' & Hf' & Hr' & Ha' & Hb' & Hd' & He' & Hu' & Hz').
  repeat split; try congruence; try lia.
Qed.

Lemma accountsKept_notice (s : Service Props R) (w : World Props)
    (s' : Service Props R) (w' : World Props) (e : Effect Props) :
  accountsKept s w s' w' ->
  trackedNotice e = 0 -> completedNotice e = 0 -> failedNotice e = 0 ->
  deliveredEvents e = 0 ->
  accountsKept s w s' (logged e w').
Proof.
  unfold accountsKept, unaccounted. fields.
  intros (Hc & Ht & Hf & Hr & Ha & Hb & Hd & He & Hu & Hz) H1 H2 H3 H4.
  rewrite !tally_app. cbn [tally]. rewrite H1, H2, H3, H4.
  repeat split; try congruence; try lia.
Qed.

Lemma flush_accounts (s : Service Props R) (w : World Props) :
  accountsKept s w (snd (fst (flush net s w))) (snd (flush net s w)).
Proof.
  pose proof (flush_effect net s w) as H. cbv zeta in H.
  destruct H
    as [[-> _] | (Hflag & Hq & w1 & l & Hl & Hd & _ & Ht & [-> | [m ->]])].
  - apply accountsKept_refl.
  - unfold accountsKept, unaccounted. fields. rewrite Hl, Hflag.
    rewrite !tally_app.
    pose proof (fun f H1 H2 => tally_attempts f _ l H1 H2 Hd) as Hquiet.
    rewrite (Hquiet trackedNotice), (Hquiet completedNotice),
      (Hquiet failedNotice), (Hquiet deliveredEvents) by reflexivity.
    cbn [tally trackedNotice completedNotice failedNotice deliveredEvents].
    rewrite length_skipn.
    pose proof (batchLength_le (config s) (length (eventQueue s))).
    repeat split; try lia. exact Ht.
  - unfold accountsKept, unaccounted. fields. rewrite Hl, Hflag.
    rewrite !tally_app.
    pose proof (fun f H1 H2 => tally_attempts f _ l H1 H2 Hd) as Hquiet.
    rewrite (Hquiet trackedNotice), (Hquiet completedNotice),
      (Hquiet failedNotice), (Hquiet deliveredEvents) by reflexivity.
    cbn [tally trackedNotice completedNotice failedNotice deliveredEvents].
    rewrite length_skipn.
    pose proof (batchLength_le (config s) (length (eventQueue s))).
    repeat split; try lia. exact Ht.
Qed.

Lemma track_accounts (eventType userId : string) (properties : Props)
    (s : Service Props R) (w : World Props) :
  let r := track net eventType userId properties s w in
  accountsKept s w (snd (fst r)) (snd r).
Proof.
  cbv zeta. rewrite track_unfold. cbv zeta.
  set (ev := newEvent eventType userId properties (now w)).
  assert (Hpush : accountsKept s w (enqueued s ev)
                    (logged (Emit (eventTracked ev)) w)).
  { unfold accountsKept, unaccounted. fields.
    rewrite !tally_app, length_app.
    cbn [tally trackedNotice completedNotice failedNotice deliveredEvents length].
    repeat split; lia. }
  destruct (_ >=? _); [|exact Hpush].
  pose proof (flush_accounts (enqueued s ev)
                (logged (Emit (eventTracked ev)) w)) as Hflush.
  destruct (flush net (enqueued s ev) (logged (Emit (eventTracked ev)) w))
    as [[[n|v] s2] w2]; cbn [fst snd] in *;
    exact (accountsKept_trans _ _ _ _ _ _ Hpush Hflush).
Qed.

Lemma onInterval_accounts (s : Service Props R) (w : World Props) :
  accountsKept s w (snd (fst (onInterval net s w))) (snd (onInterval net s w)).
Proof.
  unfold onInterval, bind, this, try_catch.
  destruct (_ >? _); [|apply accountsKept_refl].
  pose proof (flush_accounts s w) as Hflush.
  destruct (flush net s w) as [[[n|v] s2] w2]; cbn [fst snd] in *.
  - exact Hflush.
  - unfold emit. cbn [fst snd].
    apply accountsKept_notice; try reflexivity.
    apply accountsKept_notice; try reflexivity.
    exact Hflush.
Qed.

Lemma perform_accounts (c : Call Props) (s : Service Props R) (w : World Props) :
  accountsKept s w (fst (perform net c s w)) (snd (perform net c s w)).
Proof.
  destruct c as [ty uid p | | | ms]; cbn [perform].
  - pose proof (track_accounts ty uid p s w) as H. cbv zeta in H.
    destruct (track net ty uid p s w) as [[c s2] w2]. exact H.
  - pose proof (flush_accounts s w) as H.
    destruct (flush net s w) as [[c s2] w2]. exact H.
  - destruct (timerRunning w); [|apply accountsKept_refl].
    pose proof (onInterval_accounts s w) as H.
    destruct (onInterval net s w) as [[c s2] w2]. exact H.
  - unfold accountsKept, unaccounted. fields. repeat split; lia.
Qed.

Lemma performAll_accounts (cs : list (Call Props)) :
  forall (s : Service Props R) (w : World Props),
    accountsKept s w (fst (performAll net cs s w)) (snd (performAll net cs s w)).
Proof.
  induction cs as [|c cs IH]; intros s w.
  - apply accountsKept_refl.
  - cbn [performAll].
    pose proof (perform_accounts c s w) as Hstep.
    destruct (perform net c s w) as [s1 w1]. cbn [fst snd] in Hstep.
    exact (accountsKept_trans _ _ _ _ _ _ Hstep (IH s1 w1)).
Qed.

(** X5: the callback of the periodic timer never throws.  With an empty
    queue it does nothing; when its flush fails, the fields and the world
    are those the flush left, with the error emitted as ['error'] and
    printed by the listener of the class. *)
Theorem onInterval_never_throws (s : Service Props R) (w : World Props) :
  exists s' w',
    onInterval net s w = (Return tt, s', w')
    /\ (eventQueue s = [] -> s' = s /\ w' = w)
    /\ (forall v s1 w1,
          eventQueue s <> [] ->
          flush net s w = (Throw v, s1, w1) ->
          s' = s1
          /\ log w' = log w1 ++ [Emit (errorEvent v); ConsoleError v]
          /\ fetches w' = fetches w1).
Proof.
  unfold onInterval, bind, this, try_catch. rewrite queue_test.
  destruct (eventQueue s) as [|e q] eqn:Hq; cbn [negb].
  - exists s, w. split; [reflexivity|]. split; [intros _; split; reflexivity|].
    intros v s1 w1 Hne. congruence.
  - destruct (flush net s w) as [[[n|v] s1] w1].
    + eexists _, _. split; [reflexivity|]. split; [discriminate|].
      intros v s2 w2 _ Heq. discriminate Heq.
    + eexists _, _. split; [reflexivity|]. split; [discriminate|].
      intros v' s2 w2 _ Heq. injection Heq as <- <- <-.
      fields. split; [reflexivity|]. split; [|reflexivity].
      rewrite <- app_assoc. reflexivity.
Qed.

(** X6: along any run, from any state, each counter moves with its
    notification: [totalEvents] by the number of [eventTracked]
    notifications emitted, [successfulFlushes] by the number of
    [flushCompleted] and [failedFlushes] by the number of [flushFailed]. *)
Theorem run_counters_match_notifications (cs : list (Call Props))
    (s : Service Props R) (w : World Props) :
  let s' := fst (performAll net cs s w) in
  let w' := snd (performAll net cs s w) in
  totalEvents (metrics s') - totalEvents (metrics s) =
    tally trackedNotice (log w') - tally trackedNotice (log w)
  /\ successfulFlushes (metrics s') - successfulFlushes (metrics s) =
       tally completedNotice (log w') - tally completedNotice (log w)
  /\ failedFlushes (metrics s') - failedFlushes (metrics s) =
       tally failedNotice (log w') - tally failedNotice (log w).
Proof.
  cbv zeta. pose proof (performAll_accounts cs s w) as H.
  unfold accountsKept in H.
  destruct H as (_ & _ & _ & _ & Ha & Hb & Hd & _).
  repeat split; lia.
Qed.

(** X7: after any run on a new dispatcher, the events pending and the events
    reported delivered are together at most the events tracked, and exactly
    the events tracked when no flush has failed: an event leaves the queue
    without being reported delivered only in a flush that fails. *)
Theorem run_conserves_events (cfg : AnalyticsConfig) (w0 : World Props)
    (cs : list (Call Props)) :
  let st := newAnalyticsService (R:=R) cfg w0 in
  let s' := fst (performAll net cs (fst st) (snd st)) in
  let w' := snd (performAll net cs (fst st) (snd st)) in
  let delivered :=
    tally deliveredEvents (log w') - tally deliveredEvents (log w0) in
  Z.of_nat (length (eventQueue s')) + delivered <= totalEvents (metrics s')
  /\ (failedFlushes (metrics s') = 0 ->
      Z.of_nat (length (eventQueue s')) + delivered = totalEvents (metrics s')).
Proof.
  cbv zeta.
  set (s0 := fst (newAnalyticsService (R:=R) cfg w0)).
  set (w1 := snd (newAnalyticsService (R:=R) cfg w0)).
  assert (Hq : eventQueue s0 = []) by reflexivity.
  assert (Ht : totalEvents (metrics s0) = 0) by reflexivity.
  assert (Hf : failedFlushes (metrics s0) = 0) by reflexivity.
  assert (Hd : tally deliveredEvents (log w1) = tally deliveredEvents (log w0)).
  { unfold w1. cbn [newAnalyticsService initializeService bind this
                    setInterval update snd log].
    rewrite tally_app. cbn [tally deliveredEvents]. lia. }
  pose proof (performAll_accounts cs s0 w1) as H.
  unfold accountsKept, unaccounted in H.
  destruct H as (_ & _ & _ & _ & _ & _ & _ & _ & Hu & Hz).
  rewrite Hq, Ht, Hd in Hu. rewrite Hq, Ht, Hd, Hf in Hz.
  cbn [length Z.of_nat] in Hu, Hz.
  split; [lia|]. intros Hnone. specialize (Hz Hnone). lia.
Qed.

(** X8: no call of a run changes the configuration, the timer handle or
    whether the periodic timer runs, and a dispatcher that is idle before a
    run is idle after it. *)
Theorem run_keeps_configuration (cs : list (Call Props))
    (s : Service Props R) (w : World Props) :
  let s' := fst (performAll net cs s w) in
  let w' := snd (performAll net cs s w) in
  config s' = config s
  /\ flushTimer s' = flushTimer s
  /\ timerRunning w' = timerRunning w
  /\ isFlushInProgress s' = isFlushInProgress s.
Proof.
  cbv zeta. pose proof (performAll_accounts cs s w) as H.
  unfold accountsKept in H.
  destruct H as (Hc & Ht & Hf & Hr & _).
  repeat split; assumption.
Qed.

(** X9: while a flush is in progress [track()] still takes the event: it
    returns, the event is at the end of the queue and counted, and nothing
    is sent, even when the queue has reached [batchSize]. *)
Theorem track_while_flushing (eventType userId : string) (properties : Props)
    (s : Service Props R) (w : World Props) :
  isFlushInProgress s = true ->
  exists s' w',
    track net eventType userId properties s w = (Return tt, s', w')
    /\ eventQueue s' =
         eventQueue s ++ [newEvent eventType userId properties (now w)]
    /\ totalEvents (metrics s') = totalEvents (metrics s) + 1
    /\ isFlushInProgress s' = true
    /\ fetches w' = fetches w
    /\ log w' =
         log w ++ [Emit (eventTracked
                           (newEvent eventType userId properties (now w)))].
Proof.
  intros Hflag. rewrite track_unfold. cbv zeta.
  destruct (_ >=? _).
  - rewrite flush_skip by (left; exact Hflag).
    eexists _, _. split; [reflexivity|]. fields. repeat split. exact Hflag.
  - eexists _, _. split; [reflexivity|]. fields. repeat split. exact Hflag.
Qed.

Lemma tracks_quiet (args : list (string * string * Props)) :
  forall (s : Service Props R) (w : World Props),
    Z.of_nat (length (eventQueue s)) + Z.of_nat (length args)
      < batchSize (config s) ->
    performAll net (map trackCall args) s w =
      ({| config := config s;
          eventQueue := eventQueue s ++ map (eventOf (now w)) args;
          isFlushInProgress := isFlushInProgress s;
          flushTimer := flushTimer s;
          metrics :=
            {| totalEvents := totalEvents (metrics s) + Z.of_nat (length args);
               successfulFlushes := successfulFlushes (metrics s);
               failedFlushes := failedFlushes (metrics s);
               averageFlushTime := averageFlushTime (metrics s) |} |},
       {| now := now w; fetches := fetches w; timerRunning := timerRunning w;
          log := log w ++ map (fun a => Emit (eventTracked (eventOf (now w) a)))
                            args |}).
Proof.
  induction args as [|a args IH]; intros s w Hlen.
  - cbn [map performAll length Z.of_nat]. rewrite !app_nil_r, Z.add_0_r.
    destruct s as [c q f t [a b d e]], w. reflexivity.
  - cbn [map performAll perform trackCall].
    rewrite track_unfold. cbv zeta. fields.
    replace (Z.of_nat (length (eventQueue s
               ++ [newEvent (fst (fst a)) (snd (fst a)) (snd a) (now w)]))
             >=? batchSize (config s)) with false
      by (symmetry; rewrite Z.geb_leb; apply Z.leb_gt; rewrite length_app;
          cbn [length] in *; lia).
    rewrite IH.
    + fields. unfold eventOf at 3. unfold eventOf at 4.
      repeat rewrite <- app_assoc. cbn [app length].
      replace (totalEvents (metrics s) + 1 + Z.of_nat (length args))
        with (totalEvents (metrics s) + Z.of_nat (S (length args))) by lia.
      reflexivity.
    + fields. rewrite length_app. cbn [length] in *. lia.
Qed.

(** X10: tracking events that leave the queue shorter than [batchSize]
    sends nothing: the events are appended to the queue in the order of the
    calls, all stamped with the time of the calls, each is counted and
    notified, and no fetch is made. *)
Theorem tracks_below_threshold (args : list (string * string * Props))
    (s : Service Props R) (w : World Props) :
  Z.of_nat (length (eventQueue s)) + Z.of_nat (length args)
    < batchSize (config s) ->
  let s' := fst (performAll net (map trackCall args) s w) in
  let w' := snd (performAll net (map trackCall args) s w) in
  eventQueue s' = eventQueue s ++ map (eventOf (now w)) args
  /\ totalEvents (metrics s') =
       totalEvents (metrics s) + Z.of_nat (length args)
  /\ fetches w' = fetches w
  /\ log w' =
       log w ++ map (fun a => Emit (eventTracked (eventOf (now w) a))) args.
Proof.
  intros Hlen. cbv zeta. rewrite tracks_quiet by exact Hlen.
  fields. repeat split.
Qed.

End Runs.

Section Draining.

Context {Props R : Type} {NumR : Number R}.
Variable net : nat -> FetchReply.

Lemma drain_returns_empty (fuel : nat) :
  forall (s s' : Service Props R) (w w' : World Props),
    drain net fuel s w = Some (Return tt, s', w') ->
    eventQueue s' = []
    /\ tally deliveredEvents (log w') =
         tally deliveredEvents (log w) + Z.of_nat (length (eventQueue s))
    /\ totalEvents (metrics s') = totalEvents (metrics s)
    /\ failedFlushes (metrics s') = failedFlushes (metrics s)
    /\ timerRunning w' = timerRunning w.
Proof.
  induction fuel as [|f IH]; intros s s' w w' Hrun; [discriminate|].
  cbn [drain] in Hrun. rewrite queue_test in Hrun.
  destruct (eventQueue s) as [|e q] eqn:Hq; cbn [negb] in Hrun.
  - injection Hrun as <- <-. rewrite Hq. cbn [length]. repeat split; lia.
  - pose proof (flush_accounts net s w) as Hacc.
    pose proof (flush_effect net s w) as Heff. cbv zeta in Heff.
    destruct (flush net s w) as [[[n|v] s1] w1] eqn:Hflush; [|discriminate].
    cbn [fst snd] in Hacc.
    destruct (IH s1 s' w1 w' Hrun) as (Hempty & Hd & Ht & Hf & Hr).
    unfold accountsKept, unaccounted in Hacc.
    destruct Hacc as (_ & _ & _ & Hr1 & _ & _ & _ & _ & _ & Hz).
    assert (Hsame : failedFlushes (metrics s1) = failedFlushes (metrics s)
                    /\ totalEvents (metrics s1) = totalEvents (metrics s)).
    { destruct Heff
        as [[Heq _] | (_ & _ & w2 & l & _ & _ & _ & _ & [Heq | [m Heq]])].
      - injection Heq as _ -> _. split; reflexivity.
      - injection Heq as _ -> _. split; reflexivity.
      - discriminate Heq. }
    destruct Hsame as [Hfail Htot].
    specialize (Hz Hfail). rewrite Hq in *.
    split; [exact Hempty|]. repeat split; try lia; congruence.
Qed.

Lemma drain_all_ok (fuel : nat) :
  forall (s : Service Props R) (w : World Props),
    isFlushInProgress s = false ->
    1 <= batchSize (config s) ->
    1 <= retryAttempts (config s) ->
    (forall i, deliveryError (net i) = None) ->
    (length (eventQueue s) < fuel)%nat ->
    exists s' w',
      drain net fuel s w = Some (Return tt, s', w')
      /\ Z.of_nat (fetches w') =
           Z.of_nat (fetches w)
           + (Z.of_nat (length (eventQueue s)) + batchSize (config s) - 1)
             / batchSize (config s)
      /\ successfulFlushes (metrics s') =
           successfulFlushes (metrics s)
           + (Z.of_nat (length (eventQueue s)) + batchSize (config s) - 1)
             / batchSize (config s).
Proof.
  induction fuel as [|f IH]; intros s w Hflag Hb Hr Hok Hlen; [lia|].
  cbn [drain]. rewrite queue_test.
  destruct (eventQueue s) as [|e q] eqn:Hq; cbn [negb].
  - eexists _, _. split; [reflexivity|]. cbn [length Z.of_nat].
    rewrite Z.div_small by lia. lia.
  - rewrite flush_ok; [|exact Hflag|rewrite Hq; discriminate|exact Hr|apply Hok].
    cbv zeta. rewrite <- Hq in *.
    set (k := batchLength (config s) (length (eventQueue s))).
    assert (Hk : Z.of_nat k = Z.min (batchSize (config s))
                                (Z.of_nat (length (eventQueue s)))).
    { unfold k, batchLength. lia. }
    assert (Hpos : (0 < length (eventQueue s))%nat)
      by (rewrite Hq; cbn [length]; lia).
    destruct (IH (afterDelivery s (skipn k (eventQueue s))
                    (latency (net (fetches w))))
                 (logged (Emit (flushCompleted
                    (Z.of_nat (length (firstn k (eventQueue s))))))
                    (posted net (apiEndpoint (config s))
                       (firstn k (eventQueue s)) w)))
      as (s' & w' & Hrun & Hf & Hs).
    + reflexivity.
    + exact Hb.
    + exact Hr.
    + exact Hok.
    + fields. rewrite length_skipn. lia.
    + exists s', w'. split; [exact Hrun|].
      cbn [fetches logged posted config afterDelivery eventQueue metrics
           successfulFlushes] in Hf, Hs.
      rewrite length_skipn in Hf, Hs.
      set (b := batchSize (config s)) in *.
      set (n := Z.of_nat (length (eventQueue s))) in *.
      assert (Hdiv : (n + b - 1) / b
                     = 1 + (Z.of_nat (length (eventQueue s) - k) + b - 1) / b).
      { destruct (Z.le_gt_cases b n) as [Hle | Hgt].
        - replace (Z.of_nat (length (eventQueue s) - k)) with (n - b) by lia.
          replace (n + b - 1) with ((n - b + b - 1) + 1 * b) by lia.
          rewrite Z.div_add by lia. lia.
        - replace (Z.of_nat (length (eventQueue s) - k)) with 0 by lia.
          rewrite (Z.div_small (0 + b - 1)) by lia.
          assert (Hone : (n + b - 1) / b = 1).
          { replace (n + b - 1) with ((n - 1) + 1 * b) by lia.
            rewrite Z.div_add by lia. rewrite Z.div_small by lia. lia. }
          lia. }
      rewrite Hdiv. split; lia.
Qed.

Lemma timerCleared_facts (s : Service Props R) (w : World Props) :
  fetches (timerCleared s w) = fetches w
  /\ tally deliveredEvents (log (timerCleared s w)) =
       tally deliveredEvents (log w)
  /\ (flushTimer s <> None -> timerRunning (timerCleared s w) = false).
Proof.
  unfold timerCleared. destruct (flushTimer s); fields.
  - rewrite tally_app. cbn [tally deliveredEvents].
    repeat split; lia.
  - repeat split. congruence.
Qed.

(** X11: a [shutdown()] that returns has left the queue empty; the
    [flushCompleted] notifications it emitted report exactly as many events
    as were pending at the call, no flush has failed, the periodic timer (if
    one was set) is stopped, and the last thing it did was to emit
    [shutdown]. *)
Theorem shutdown_drains_everything (fuel : nat) (s s' : Service Props R)
    (w w' : World Props) :
  shutdown net fuel s w = Some (Return tt, s', w') ->
  eventQueue s' = []
  /\ tally deliveredEvents (log w') =
       tally deliveredEvents (log w) + Z.of_nat (length (eventQueue s))
  /\ totalEvents (metrics s') = totalEvents (metrics s)
  /\ failedFlushes (metrics s') = failedFlushes (metrics s)
  /\ (flushTimer s <> None -> timerRunning w' = false)
  /\ exists l, log w' = l ++ [Emit shutdownDone].
Proof.
  intros Hrun. rewrite shutdown_drain in Hrun.
  destruct (drain net fuel s (timerCleared s w)) as [[[[[]|v] s2] w2]|] eqn:Hd;
    try discriminate Hrun.
  injection Hrun as <- <-.
  destruct (drain_returns_empty fuel _ _ _ _ Hd) as (Hq & Hdel & Ht & Hf & Hr).
  destruct (timerCleared_facts s w) as (_ & Hdel0 & Htimer).
  fields. rewrite tally_app. cbn [tally deliveredEvents].
  split; [exact Hq|]. split; [lia|]. split; [exact Ht|]. split; [exact Hf|].
  split.
  - intros Hset. rewrite Hr. apply Htimer. exact Hset.
  - exists (log w2). reflexivity.
Qed.

(** X12: with [batchSize >= 1], at least one attempt per delivery, a network
    that answers every request well and no flush in progress, [shutdown()]
    returns after exactly ceil(queueLength / batchSize) fetches, each a
    successful flush, and leaves the queue empty. *)
Theorem shutdown_flush_count (fuel : nat) (s : Service Props R)
    (w : World Props) :
  isFlushInProgress s = false ->
  1 <= batchSize (config s) ->
  1 <= retryAttempts (config s) ->
  (forall i, deliveryError (net i) = None) ->
  (length (eventQueue s) < fuel)%nat ->
  exists s' w',
    shutdown net fuel s w = Some (Return tt, s', w')
    /\ eventQueue s' = []
    /\ Z.of_nat (fetches w') =
         Z.of_nat (fetches w)
         + (Z.of_nat (length (eventQueue s)) + batchSize (config s) - 1)
           / batchSize (config s)
    /\ successfulFlushes (metrics s') =
         successfulFlushes (metrics s)
         + (Z.of_nat (length (eventQueue s)) + batchSize (config s) - 1)
           / batchSize (config s).
Proof.
  intros Hflag Hb Hr Hok Hlen.
  destruct (drain_all_ok fuel s (timerCleared s w) Hflag Hb Hr Hok Hlen)
    as (s' & w' & Hrun & Hf & Hs).
  destruct (drain_returns_empty fuel _ _ _ _ Hrun) as (Hq & _).
  destruct (timerCleared_facts s w) as (Hf0 & _).
  rewrite shutdown_drain, Hrun.
  eexists _, _. split; [reflexivity|]. fields.
  split; [exact Hq|]. split; [lia | exact Hs].
Qed.

End Draining.

(** * Properties of the responsive page *)

Lemma classList_add_In (c x : string) (l : ClassList) :
  In x (classList_add c l) <-> x = c \/ In x l.
Proof.
  unfold classList_add, classList_contains.
  destruct (existsb (String.eqb c) l) eqn:E.
  - split; [intros H; right; exact H|].
    intros [-> | H]; [|exact H].
    apply existsb_exists in E. destruct E as (y & Hy & Heq).
    apply String.eqb_eq in Heq. subst y. exact Hy.
  - rewrite in_app_iff. cbn [In]. split.
    + intros [H | [H | []]]; [right; exact H | left; symmetry; exact H].
    + intros [-> | H]; [right; left; reflexivity | left; exact H].
Qed.

Lemma classList_remove_In (cs : list string) (x : string) (l : ClassList) :
  In x (classList_remove cs l) <-> In x l /\ ~ In x cs.
Proof.
  unfold classList_remove. rewrite filter_In. split.
  - intros [Hx Hn]. split; [exact Hx|]. intros Hin.
    apply negb_true_iff in Hn.
    assert (Ht : existsb (String.eqb x) cs = true).
    { apply existsb_exists. exists x. split; [exact Hin | apply String.eqb_refl]. }
    congruence.
  - intros [Hx Hn]. split; [exact Hx|]. apply negb_true_iff.
    destruct (existsb (String.eqb x) cs) eqn:E; [|reflexivity].
    apply existsb_exists in E. destruct E as (y & Hy & Heq).
    apply String.eqb_eq in Heq. subst y. contradiction.
Qed.

Lemma classList_remove_idem (cs : list string) (l : ClassList) :
  classList_remove cs (classList_remove cs l) = classList_remove cs l.
Proof.
  unfold classList_remove. induction l as [|x l IH]; [reflexivity|].
  cbn [filter]. destruct (negb (existsb (String.eqb x) cs)) eqn:E.
  - cbn [filter]. rewrite E, IH. reflexivity.
  - exact IH.
Qed.

Lemma classList_remove_add (cs : list string) (c : string) (l : ClassList) :
  In c cs ->
  classList_remove cs (classList_add c l) = classList_remove cs l.
Proof.
  intros Hin. unfold classList_add.
  destruct (classList_contains c l); [reflexivity|].
  unfold classList_remove. rewrite filter_app. cbn [filter].
  replace (existsb (String.eqb c) cs) with true.
  - cbn [negb]. apply app_nil_r.
  - symmetry. apply existsb_exists. exists c.
    split; [exact Hin | apply String.eqb_refl].
Qed.

Lemma classList_add_idem (c : string) (l : ClassList) :
  classList_add c (classList_add c l) = classList_add c l.
Proof.
  unfold classList_add at 1.
  replace (classList_contains c (classList_add c l)) with true; [reflexivity|].
  symmetry. unfold classList_contains. apply existsb_exists. exists c.
  split; [apply classList_add_In; left; reflexivity | apply String.eqb_refl].
Qed.

Lemma matchedBreakpoint_integer (z : Z) :
  exists b, matchedBreakpoint (inject_Z z) = Some b
            /\ keyName b = getCurrentBreakpoint z.
Proof.
  unfold matchedBreakpoint, getCurrentBreakpoint, matches, mediaQueries,
    Qle_bool, inject_Z.
  cbn [minWidth maxWidth Qnum Qden andb].
  repeat match goal with
         | |- context [Z.leb ?a ?b] => destruct (Z.leb_spec a b)
         | |- context [Z.ltb ?a ?b] => destruct (Z.ltb_spec a b)
         end; cbn [andb]; try lia; eexists; split; reflexivity.
Qed.

Lemma breakpointClass_name (b : Breakpoint) :
  breakpointClass b = ("breakpoint-" ++ keyName b)%string.
Proof. destruct b; reflexivity. Qed.

Lemma breakpointClass_listed (b : Breakpoint) :
  In (breakpointClass b) breakpointClasses.
Proof. destruct b; cbn; tauto. Qed.

(** X13: at every integer viewport width, [updateLayout] leaves on the body
    exactly one breakpoint class, the one named by [getCurrentBreakpoint] at
    that width, whatever breakpoint classes were there before; the other
    classes of the body stay. *)
Theorem updateLayout_class_of_width (z : Z) (p : Page) (c : string) :
  In c (bodyClasses (updateLayout (inject_Z z) p)) <->
    c = ("breakpoint-" ++ getCurrentBreakpoint z)%string
    \/ (In c (bodyClasses p) /\ ~ In c breakpointClasses).
Proof.
  unfold updateLayout. cbn [bodyClasses].
  destruct (matchedBreakpoint_integer z) as (b & -> & Hname).
  rewrite classList_add_In, classList_remove_In, breakpointClass_name, Hname.
  reflexivity.
Qed.

(** X14: at every integer viewport width, after [updateLayout] the sidebar,
    when there is one, has the class [show] exactly when [isMobileDevice] is
    false at that width; its other classes stay. *)
Theorem sidebar_shown_off_mobile (z : Z) (p : Page) (sidebar : ClassList) :
  sidebarClasses p = Some sidebar ->
  exists sidebar',
    sidebarClasses (updateLayout (inject_Z z) p) = Some sidebar'
    /\ (In "show" sidebar' <-> isMobileDevice z = false)
    /\ (forall c, c <> "show" -> (In c sidebar' <-> In c sidebar)).
Proof.
  intros Hs. unfold updateLayout. cbn [sidebarClasses]. rewrite Hs.
  eexists. split; [reflexivity|].
  unfold isMobileDevice, matches, mediaQueries, Qle_bool, inject_Z.
  cbn [minWidth maxWidth Qnum Qden andb].
  repeat match goal with
         | |- context [Z.leb ?a ?b] => destruct (Z.leb_spec a b)
         | |- context [Z.ltb ?a ?b] => destruct (Z.ltb_spec a b)
         end; cbn [andb orb]; try lia.
  all: split;
    [ try (rewrite classList_remove_In; cbn [In]; intuition congruence);
      try (rewrite classList_add_In; intuition congruence)
    | intros c Hc;
      try (rewrite classList_remove_In; cbn [In]; intuition congruence);
      try (rewrite classList_add_In; intuition congruence) ].
Qed.

(** X15: at any viewport width, integer or not, at most one of the six
    media queries matches. *)
Theorem media_queries_disjoint (w : Q) (b1 b2 : Breakpoint) :
  matches (mediaQueries b1) w = true ->
  matches (mediaQueries b2) w = true ->
  b1 = b2.
Proof.
  unfold matches, Qle_bool.
  destruct w as [n d].
  destruct b1, b2; cbn [mediaQueries minWidth maxWidth Qnum Qden andb];
    try reflexivity;
    intros H1 H2;
    repeat match goal with
           | H : _ && _ = true |- _ => apply andb_prop in H; destruct H as [? ?]
           | H : (_ <=? _) = true |- _ => apply Z.leb_le in H
           end; exfalso; nia.
Qed.

(** X16: at a viewport width strictly between 575.98 and 576 pixels no
    media query matches: [updateLayout] removes the breakpoint classes of
    the body and adds none, and shows the sidebar. *)
Theorem media_query_gap (w : Q) (p : Page) :
  (57598 # 100 < w)%Q -> (w < 576 # 1)%Q ->
  matchedBreakpoint w = None
  /\ (forall c, In c (bodyClasses (updateLayout w p)) -> ~ In c breakpointClasses)
  /\ (forall sidebar, sidebarClasses p = Some sidebar ->
        exists sidebar', sidebarClasses (updateLayout w p) = Some sidebar'
                         /\ In "show" sidebar').
Proof.
  intros Hlo Hhi.
  assert (Hxs : matches (mediaQueries xs) w = false).
  { unfold matches. cbn [mediaQueries minWidth maxWidth andb].
    apply not_true_is_false. intros H. apply Qle_bool_iff in H.
    apply (Qlt_not_le _ _ Hlo H). }
  assert (Hge : forall m, (576 # 1 <= m)%Q -> Qle_bool m w = false).
  { intros m Hm. apply not_true_is_false. intros H. apply Qle_bool_iff in H.
    apply (Qlt_not_le _ _ Hhi). apply (Qle_trans _ m); assumption. }
  assert (Hnone : matchedBreakpoint w = None).
  { unfold matchedBreakpoint. rewrite Hxs.
    unfold matches. cbn [mediaQueries minWidth maxWidth].
    rewrite !Hge by (unfold Qle; cbn; lia). reflexivity. }
  split; [exact Hnone|]. split.
  - intros c. unfold updateLayout. cbn [bodyClasses]. rewrite Hnone.
    rewrite classList_remove_In. intros [_ H]. exact H.
  - intros sidebar Hs. unfold updateLayout. cbn [sidebarClasses].
    rewrite Hs, Hxs. unfold matches at 1.
    cbn [mediaQueries minWidth maxWidth].
    rewrite Hge by (unfold Qle; cbn; lia). cbn [andb orb].
    eexists. split; [reflexivity|]. apply classList_add_In. left. reflexivity.
Qed.

(** X17: [isMobileDevice] holds exactly at the widths [getCurrentBreakpoint]
    calls xs or sm. *)
Theorem isMobileDevice_breakpoints (z : Z) :
  isMobileDevice z = true <->
    getCurrentBreakpoint z = "xs" \/ getCurrentBreakpoint z = "sm".
Proof.
  unfold isMobileDevice, getCurrentBreakpoint.
  repeat match goal with
         | |- context [Z.ltb ?a ?b] => destruct (Z.ltb_spec a b)
         end; try lia;
    (split;
     [ intros Hm; first [ left; reflexivity | right; reflexivity
                        | discriminate Hm ]
     | intros [Hb | Hb]; first [ reflexivity | discriminate Hb ] ]).
Qed.

(** X18: [updateLayout] is idempotent: run again at the same width, as when
    several media queries change at once, it leaves the page as it is. *)
Theorem updateLayout_idempotent (w : Q) (p : Page) :
  updateLayout w (updateLayout w p) = updateLayout w p.
Proof.
  unfold updateLayout. cbn [bodyClasses sidebarClasses]. f_equal.
  - destruct (matchedBreakpoint w) as [b|].
    + rewrite classList_remove_add by apply breakpointClass_listed.
      rewrite classList_remove_idem. reflexivity.
    + apply classList_remove_idem.
  - destruct (sidebarClasses p) as [sidebar|]; [|reflexivity].
    f_equal.
    destruct (matches (mediaQueries xs) w || matches (mediaQueries sm) w).
    + apply classList_remove_idem.
    + apply classList_add_idem.
Qed.

(** * The further properties at sample dispatchers and pages *)

(** One event sent on a network that fails twice and then answers. *)
Lemma sendEvents_retries_until_success_witness :
  exists w',
    sendEvents flaky [evA] oneEventService quietWorld
      = (Return tt, oneEventService, w')
    /\ fetches w' = 3%nat
    /\ now w' = 1000 + (7 + 7 + 5) + (2000 + 4000).
Proof.
  destruct (sendEvents_retries_until_success flaky [evA] 2 oneEventService
              quietWorld)
    as (w' & Hrun & _ & Hf & Hnow).
  - cbn. lia.
  - intros i Hi. destruct i as [|[|i]]; [discriminate | discriminate | lia].
  - reflexivity.
  - exists w'. split; [exact Hrun|]. split; [exact Hf|].
    rewrite Hnow. reflexivity.
Defined.

(** One event sent twenty-three times on a network that is down: the
    sleeps are 2000, 4000, ..., 2097152000 ms and then 1 ms, after the
    twenty-second attempt. *)
Lemma sendEvents_exhausted_backoff_witness :
  exists v w',
    sendEvents allDown [evA] patientService quietWorld
      = (Throw v, patientService, w')
    /\ fetches w' = 23%nat
    /\ now w' = 1000 + 23 * 7 + (1000 * (2 ^ 22 - 2) + 1)
    /\ now w' = 4194303162.
Proof.
  destruct (sendEvents_exhausted_backoff allDown [evA] patientService
              quietWorld)
    as (v & w' & Hrun & _ & Hf & Hnow).
  - cbn. lia.
  - intros i _. apply allDown_fails.
  - exists v, w'. split; [exact Hrun|]. split; [exact Hf|].
    rewrite Hnow. split; reflexivity.
Defined.

(** A flush whose every fetch is rejected with the string "timeout". *)
Lemma flush_throws_error_object_witness :
  exists v s' w',
    flush rejecting oneEventService quietWorld = (Throw v, s', w')
    /\ exists message, v = ErrorObj message.
Proof.
  destruct (flush rejecting oneEventService quietWorld) as [[[n|v] s'] w']
    eqn:Hrun; [vm_compute in Hrun; discriminate Hrun|].
  exists v, s', w'. split; [reflexivity|].
  exact (flush_throws_error_object rejecting oneEventService s' quietWorld w'
           v Hrun).
Defined.

(** An event tracked on a dispatcher that is flushing. *)
Lemma track_while_flushing_witness :
  exists s' w',
    track allDown "B" "user123" "{}" busyService quietWorld
      = (Return tt, s', w')
    /\ eventQueue s' = [evA; newEvent "B" "user123" "{}" 1000]
    /\ fetches w' = 0%nat.
Proof.
  destruct (track_while_flushing allDown "B" "user123" "{}" busyService
              quietWorld)
    as (s' & w' & Hrun & Hqueue & _ & _ & Hf & _).
  - reflexivity.
  - exists s', w'. split; [exact Hrun|]. split; [exact Hqueue | exact Hf].
Defined.

(** Two events tracked on a dispatcher with one event and batch size 10. *)
Lemma tracks_below_threshold_witness :
  let run := performAll allDown
               (map trackCall [("B", "u1", "{}"); ("C", "u2", "{}")])
               oneEventService quietWorld in
  eventQueue (fst run)
    = [evA; newEvent "B" "u1" "{}" 1000; newEvent "C" "u2" "{}" 1000]
  /\ fetches (snd run) = 0%nat.
Proof.
  destruct (tracks_below_threshold allDown
              [("B", "u1", "{}"); ("C", "u2", "{}")] oneEventService
              quietWorld)
    as (Hqueue & _ & Hf & _).
  - cbn. lia.
  - split; [exact Hqueue | exact Hf].
Defined.

(** Shutdown with five events, batch size 2 and a network that answers. *)
Lemma shutdown_drains_everything_witness :
  exists s' w',
    shutdown allOk 4 fiveEventService quietWorld = Some (Return tt, s', w')
    /\ eventQueue s' = []
    /\ tally deliveredEvents (log w') = 5
    /\ timerRunning w' = false.
Proof.
  destruct (shutdown allOk 4 fiveEventService quietWorld)
    as [[[[[]|v] s'] w']|] eqn:Hrun;
    try (vm_compute in Hrun; discriminate Hrun).
  destruct (shutdown_drains_everything allOk 4 fiveEventService s' quietWorld
              w' Hrun)
    as (Hqueue & Hd & _ & _ & Htimer & _).
  exists s', w'. split; [reflexivity|]. split; [exact Hqueue|].
  split; [rewrite Hd; reflexivity|].
  apply Htimer. discriminate.
Defined.

(** Five events in batches of two: three fetches. *)
Lemma shutdown_flush_count_witness :
  exists s' w',
    shutdown allOk 6 fiveEventService quietWorld = Some (Return tt, s', w')
    /\ eventQueue s' = []
    /\ fetches w' = 3%nat
    /\ successfulFlushes (metrics s') = 3.
Proof.
  destruct (shutdown_flush_count allOk 6 fiveEventService quietWorld)
    as (s' & w' & Hrun & Hqueue & Hf & Hs).
  - reflexivity.
  - cbn. lia.
  - cbn. lia.
  - exact allOk_succeeds.
  - cbn. lia.
  - exists s', w'. split; [exact Hrun|]. split; [exact Hqueue|].
    change ((Z.of_nat (length (eventQueue fiveEventService))
             + batchSize (config fiveEventService) - 1)
            / batchSize (config fiveEventService)) with 3 in Hf, Hs.
    split; [|exact Hs].
    change (Z.of_nat (fetches quietWorld)) with 0 in Hf. lia.
Defined.

(** The desktop page narrowed to 500 pixels. *)
Lemma sidebar_shown_off_mobile_witness :
  exists sidebar',
    sidebarClasses (updateLayout (inject_Z 500) desktopPage) = Some sidebar'
    /\ ~ In "show" sidebar'
    /\ In "sidebar" sidebar'.
Proof.
  destruct (sidebar_shown_off_mobile 500 desktopPage ["sidebar"; "show"])
    as (sidebar' & Hrun & Hshow & Hrest).
  - reflexivity.
  - exists sidebar'. split; [exact Hrun|]. split.
    + intros Hin. apply Hshow in Hin. discriminate Hin.
    + apply Hrest; [discriminate|]. left. reflexivity.
Defined.

(** At 800 pixels the query of md matches. *)
Lemma media_queries_disjoint_witness :
  matches (mediaQueries md) (800 # 1) = true /\ md = md.
Proof.
  split; [reflexivity|].
  apply (media_queries_disjoint (800 # 1) md md); reflexivity.
Defined.

(** The desktop page at 575.99 pixels. *)
Lemma media_query_gap_witness :
  matchedBreakpoint (57599 # 100) = None
  /\ bodyClasses (updateLayout (57599 # 100) desktopPage) = ["app"]
  /\ exists sidebar',
       sidebarClasses (updateLayout (57599 # 100) desktopPage) = Some sidebar'
       /\ In "show" sidebar'.
Proof.
  destruct (media_query_gap (57599 # 100) desktopPage) as (Hnone & _ & Hside).
  - reflexivity.
  - reflexivity.
  - split; [exact Hnone|]. split; [reflexivity|].
    apply (Hside ["sidebar"; "show"]). reflexivity.
Defined.
